(** * Response decoding and primary-response resolution of oapi-codegen

    A shallow embedding of [pkg/codegen/template_helpers.go]: the helpers
    that build the [switch] of the generated client's response parser
    ([genResponseUnmarshal], [buildUnmarshalCase],
    [getConditionOfResponseName]) and the helpers that resolve the
    [x-primary-response] extension ([getPrimaryResponseInfo],
    [getPrimaryResponseTypeDefinition], [getSingleNonMetadataProperty],
    [asReducedTypeDefinition], [genReturnTypeName]).

    Go strings are [string] (a sequence of bytes), Go maps are [gmap],
    slices are lists, a [panic] is the [Panic] outcome of the [result]
    monad, and the [openapi3.Schema] objects that the code reaches through
    pointers live in an explicit store. *)

From Stdlib Require Import Ascii String List Bool.
From stdpp Require Import base option list strings gmap sorting pretty.

Set Warnings "-register-all".

(** ** Go strings *)

(** The two bytes that the source writes as escapes inside its literals. *)
Definition nl : string := String "010"%char EmptyString.
Definition dq : string := String "034"%char EmptyString.

(** Modelled from the spec: [SortedStringKeys] is declared in utils.go,
    outside this file; the dispatch assembler orders each group by sort key
    ascending, lexicographically.  Go compares strings byte by byte, as
    does [String.leb], on which the order [String.le] is built.  The keys
    of a map are distinct, so the sorted sequence does not depend on the
    sorting algorithm. *)
Definition SortedStringKeys {V} (m : gmap string V) : list string :=
  merge_sort String.le (map_to_list m).*1.

(** Modelled from the spec: [StringInArray] is declared in utils.go,
    outside this file; membership is an exact, case-sensitive string match
    against a fixed list. *)
Fixpoint StringInArray (str : string) (array : list string) : bool :=
  match array with
  | [] => false
  | elt :: rest => if String.eqb elt str then true else StringInArray str rest
  end.

(** ** Constants of the file *)

(** These allow the case statements to be sorted later. *)
Definition prefixMostSpecific : string := "3".
Definition prefixLessSpecific : string := "6".
Definition prefixLeastSpecific : string := "9".

(** Constants of the echo framework that the file refers to. *)
Module echo.
Definition MIMEApplicationJSON : string := "application/json".
Definition MIMEApplicationXML : string := "application/xml".
Definition MIMETextXML : string := "text/xml".
Definition HeaderContentType : string := "Content-Type".
End echo.

Definition contentTypesJSON : list string :=
  [echo.MIMEApplicationJSON; "text/x-json"].
Definition contentTypesYAML : list string :=
  ["application/yaml"; "application/x-yaml"; "text/yaml"; "text/x-yaml"].
Definition contentTypesXML : list string :=
  [echo.MIMEApplicationXML; echo.MIMETextXML].

Definition responseTypeSuffix : string := "Response".

(** ** Outcomes: a value or a panic *)

Inductive result (A : Type) : Type :=
  | Ok (a : A)
  | Panic (msg : string).
Arguments Ok {A} a.
Arguments Panic {A} msg.

Global Instance result_ret : MRet result := @Ok.
Global Instance result_bind : MBind result := λ A B k r,
  match r with
  | Ok a => k a
  | Panic msg => Panic msg
  end.

Global Instance result_fmap : FMap result := λ A B f r,
  match r with
  | Ok a => Ok (f a)
  | Panic msg => Panic msg
  end.

(** [panic(err)] on the error half of a Go [(value, error)] pair. *)
Definition orPanic {A} (r : string + A) : result A :=
  match r with
  | inl err => Panic err
  | inr a => Ok a
  end.

(** ** Status-pattern condition *)

(** Return the statusCode comparison clause from the response name. *)
Definition getConditionOfResponseName (statusCodeVar responseName : string)
  : string :=
  if String.eqb responseName "default" then "true"
  else if String.eqb responseName "1XX" || String.eqb responseName "2XX"
          || String.eqb responseName "3XX" || String.eqb responseName "4XX"
          || String.eqb responseName "5XX"
  then statusCodeVar +:+ " / 100 == " +:+ substring 0 1 responseName
  else statusCodeVar +:+ " == " +:+ responseName.

(** ** Content-type classification *)

(** The decoder named by the branch of the [switch] in
    [genResponseUnmarshal] that a content type selects; [None] is the
    [default:] branch. *)
Inductive codec := JSON | YAML | XML.

Definition codecName (c : codec) : string :=
  match c with JSON => "json" | YAML => "yaml" | XML => "xml" end.

Definition classify (contentTypeName : string) : option codec :=
  if StringInArray contentTypeName contentTypesJSON then Some JSON
  else if StringInArray contentTypeName contentTypesYAML then Some YAML
  else if StringInArray contentTypeName contentTypesXML then Some XML
  else None.

(** ** The operation model *)

(** Addresses of [openapi3.Schema] objects. *)
Definition loc := positive.

(** The parts of the kin-openapi types that the file reads. *)
Module openapi3.
Record SchemaRef := mkSchemaRef {
  Ref : string;
  Value : option loc            (* *Schema *)
}.
Record Schema := mkSchema {
  Type_ : string;
  Properties : gmap string SchemaRef
}.
Record MediaType := mkMediaType {
  MediaSchema : option SchemaRef
}.
Record Response := mkResponse {
  Content : gmap string MediaType
}.
Record ResponseRef := mkResponseRef {
  ResponseRef_Ref : string;
  ResponseRef_Value : option Response    (* *Response, nil when unresolved *)
}.
(** A value of an extension: raw JSON as the loader leaves it, or a value
    of any other dynamic type. *)
Inductive Extension :=
  | RawMessage (msg : string)
  | OtherExtension.
Record Operation := mkOperation {
  Extensions : gmap string Extension;
  Responses : gmap string ResponseRef
}.
End openapi3.

(** The store of schema objects shared through pointers.  A pointer is nil
    ([None]) or an address; an address without an object in the store is
    dereferenced like nil. *)
Abbreviation heap := (gmap loc openapi3.Schema).

(** The generator's own types (declared in schema.go and operations.go),
    with the fields that this file uses. *)
Inductive Schema := mkSchema {
  GoType : string;
  Properties : list Property;
  OAPISchema : option loc;         (* *openapi3.Schema *)
  Path : list string
}
with Property := mkProperty {
  JsonFieldName : string;
  Property_Schema : Schema;
  Required : bool
}.

Record TypeDefinition := mkTypeDefinition {
  TypeName : string;
  JsonName : string;
  TypeDefinition_Schema : Schema
}.

Record ResponseTypeDefinition := mkResponseTypeDefinition {
  ResponseTypeDefinition_TypeDefinition : TypeDefinition;   (* embedded *)
  ContentTypeName : string;
  ResponseName : string
}.

Record OperationDefinition := mkOperationDefinition {
  OperationId : string;
  OperationPath : string;
  Spec : openapi3.Operation
}.

Record primaryResponseInfo := mkPrimaryResponseInfo {
  statusCode : string;
  contentType : string;
  metadataProperties : list string
}.

(** The [interface{}] values that [json.Unmarshal] stores in a
    [map[string]interface{}]. *)
Inductive GoValue :=
  | VNil
  | VBool (b : bool)
  | VFloat64 (literal : string)
  | VString (s : string)
  | VSlice (elems : list GoValue)
  | VMap (fields : list (string * GoValue)).

(** What the verb [%T] prints for such a value. *)
Definition typeOf (v : GoValue) : string :=
  match v with
  | VNil => "<nil>"
  | VBool _ => "bool"
  | VFloat64 _ => "float64"
  | VString _ => "string"
  | VSlice _ => "[]interface {}"
  | VMap _ => "map[string]interface {}"
  end.

(** ** The helpers of the file *)

Fixpoint stringSliceContains (haystack : list string) (needle : string)
  : bool :=
  match haystack with
  | [] => false
  | element :: rest =>
      if String.eqb element needle then true
      else stringSliceContains rest needle
  end.

(** The two maps that [genResponseUnmarshal] fills, and what it has
    written to [os.Stderr]. *)
Record clauses := mkClauses {
  handledCaseClauses : gmap string string;
  unhandledCaseClauses : gmap string string;
  stderr : list string
}.

Definition noClauses : clauses := mkClauses ∅ ∅ [].

(** ["case " + getConditionOfResponseName("rsp.StatusCode", name) + ":"] *)
Definition caseClauseKeyOf (responseName : string) : string :=
  "case " +:+ getConditionOfResponseName "rsp.StatusCode" responseName +:+ ":".

(** The entry of [unhandledCaseClauses] written for an action:
    key [prefixLeastSpecific+caseClauseKey], value ["%s\n%s\n"]. *)
Definition unhandledKey (responseName : string) : string :=
  prefixLeastSpecific +:+ caseClauseKeyOf responseName.

Definition unhandledClause (responseName caseAction : string) : string :=
  caseClauseKeyOf responseName +:+ nl +:+ caseAction +:+ nl.

Definition noContentAction : string := "break // No content-type".

Definition unsupportedAction (contentTypeName : string) : string :=
  "// Content-type (" +:+ contentTypeName +:+ ") unsupported".

Definition addUnhandled (responseName caseAction : string) (st : clauses)
  : clauses :=
  mkClauses (handledCaseClauses st)
    (<[unhandledKey responseName := unhandledClause responseName caseAction]>
       (unhandledCaseClauses st))
    (stderr st).

Definition addHandled (caseKey caseClause : string) (st : clauses) : clauses :=
  mkClauses (<[caseKey := caseClause]> (handledCaseClauses st))
    (unhandledCaseClauses st) (stderr st).

Definition logStderr (line : string) (st : clauses) : clauses :=
  mkClauses (handledCaseClauses st) (unhandledCaseClauses st)
    (stderr st ++ [line]).

(** Modelled from the spec: [SortedContentKeys] is declared in utils.go,
    outside this file; the content entries of a response are iterated
    sorted by content-type string. *)
Definition SortedContentKeys (content : gmap string openapi3.MediaType)
  : list string :=
  SortedStringKeys content.

(** The clauses in the order in which the [switch] lists them: the handled
    group by sorted key, then the unhandled group by sorted key.  Indexing
    a Go map at a missing key gives the empty string. *)
Definition groupSequence (m : gmap string string) : list string :=
  (λ caseClauseKey, default EmptyString (m !! caseClauseKey))
    <$> SortedStringKeys m.

Definition dispatchSequence (st : clauses) : list string :=
  groupSequence (handledCaseClauses st)
  ++ groupSequence (unhandledCaseClauses st).

Definition renderSwitch (st : clauses) : string :=
  if Nat.eqb (size (handledCaseClauses st) + size (unhandledCaseClauses st)) 0
  then EmptyString
  else "switch {" +:+ nl
       +:+ String.concat EmptyString ((λ c, c +:+ nl) <$> dispatchSequence st)
       +:+ "}" +:+ nl.

Section Codegen.

(** Code of the generator that this file calls and that lives in other
    files (operations.go, schema.go, utils.go), and [json.Unmarshal] into
    a [map[string]interface{}].  What reads the operation's schemas
    reads them from the store. *)
Variable GetResponseTypeDefinitions :
  heap → OperationDefinition → string + list ResponseTypeDefinition.
Variable GenerateGoSchema :
  heap → openapi3.SchemaRef → list string → string + Schema.
Variable TypeDecl : Schema → string.
Variable GoTypeDef : Property → string.
Variable UppercaseFirstCharacter : string → string.
Variable json_Unmarshal : string → string + gmap string GoValue.

(** genResponseTypeName creates the name of generated response types
    (given the operationID). *)
Definition genResponseTypeName (operationID : string) : string :=
  UppercaseFirstCharacter operationID +:+ responseTypeSuffix.

Definition getResponseTypeDefinitions (h : heap) (op : OperationDefinition)
  : result (list ResponseTypeDefinition) :=
  orPanic (GetResponseTypeDefinitions h op).

(** *** genResponseUnmarshal *)

(** The [caseAction] of the JSON, YAML and XML branches: the three
    format strings differ in the decoder's package name only. *)
Definition unmarshalAction (c : codec) (typeDefinition : ResponseTypeDefinition)
  : string :=
  let td := ResponseTypeDefinition_TypeDefinition typeDefinition in
  "var dest " +:+ TypeDecl (TypeDefinition_Schema td) +:+ nl
  +:+ "if err := " +:+ codecName c
  +:+ ".Unmarshal(bodyBytes, &dest); err != nil { " +:+ nl
  +:+ " return nil, err " +:+ nl
  +:+ "}" +:+ nl
  +:+ "response." +:+ TypeName td +:+ " = &dest".

(** buildUnmarshalCase builds an unmarshalling case clause for different
    content-types. *)
Definition buildUnmarshalCase (typeDefinition : ResponseTypeDefinition)
    (caseAction contentType : string) : string * string :=
  let caseKey :=
    prefixLeastSpecific +:+ "." +:+ contentType +:+ "."
    +:+ ResponseName typeDefinition in
  let caseClauseKey :=
    getConditionOfResponseName "rsp.StatusCode" (ResponseName typeDefinition) in
  let caseClause :=
    "case strings.Contains(rsp.Header.Get(" +:+ dq +:+ echo.HeaderContentType
    +:+ dq +:+ "), " +:+ dq +:+ contentType +:+ dq +:+ ") && "
    +:+ caseClauseKey +:+ ":" +:+ nl +:+ caseAction +:+ nl in
  (caseKey, caseClause).

(** The body of the loop over the sorted content types of one response. *)
Definition contentTypeStep (typeDefinition : ResponseTypeDefinition)
    (st : clauses) (contentTypeName : string) : clauses :=
  if String.eqb
       (TypeName (ResponseTypeDefinition_TypeDefinition typeDefinition))
       "interface{}"
  then st
  else
    match classify contentTypeName with
    | Some c =>
        if String.eqb (ContentTypeName typeDefinition) contentTypeName then
          let '(caseKey, caseClause) :=
            buildUnmarshalCase typeDefinition
              (unmarshalAction c typeDefinition) (codecName c) in
          addHandled caseKey caseClause st
        else st
    | None =>
        addUnhandled (ResponseName typeDefinition)
          (unsupportedAction contentTypeName) st
    end.

(** The body of the loop over the type definitions. *)
Definition typeDefinitionStep (op : OperationDefinition) (st : clauses)
    (typeDefinition : ResponseTypeDefinition) : clauses :=
  match openapi3.Responses (Spec op) !! ResponseName typeDefinition with
  | None => st
  | Some responseRef =>
      match openapi3.ResponseRef_Value responseRef with
      | None =>
          logStderr ("Response " +:+ OperationId op +:+ "."
                     +:+ ResponseName typeDefinition +:+ " has nil value" +:+ nl)
            st
      | Some value =>
          if Nat.eqb (size (openapi3.Content value)) 0 then
            addUnhandled (ResponseName typeDefinition) noContentAction st
          else
            fold_left (contentTypeStep typeDefinition)
              (SortedContentKeys (openapi3.Content value)) st
      end
  end.

Definition collectCaseClauses (op : OperationDefinition)
    (typeDefinitions : list ResponseTypeDefinition) : clauses :=
  fold_left (typeDefinitionStep op) typeDefinitions noClauses.

(** genResponseUnmarshal generates unmarshaling steps for structured
    response payloads. *)
Definition genResponseUnmarshal (h : heap) (op : OperationDefinition)
  : result string :=
  typeDefinitions ← orPanic (GetResponseTypeDefinitions h op);
  if Nat.eqb (length typeDefinitions) 0 then Ok EmptyString
  else Ok (renderSwitch (collectCaseClauses op typeDefinitions)).

(** *** The primary-response extension *)

(** The loop over the elements of [metadata-properties]; [i] is the
    index of the first element of [props]. *)
Fixpoint metadataPropertiesLoop (props : list GoValue) (i : nat)
    (acc : list string) : result (list string) :=
  match props with
  | [] => Ok acc
  | VString prop :: rest => metadataPropertiesLoop rest (S i) (acc ++ [prop])
  | propAny :: _ =>
      Panic ("expected string for metadata-properties element "
             +:+ pretty i +:+ ", got " +:+ typeOf propAny)
  end.

(** [m[key]] followed by the assertion [tmp.(string)]. *)
Definition requiredString (m : gmap string GoValue) (key : string)
  : result string :=
  match m !! key with
  | None => Panic ("no " +:+ key +:+ " key in x-primary-response")
  | Some (VString s) => Ok s
  | Some tmp =>
      Panic ("expected string for " +:+ key
             +:+ " in x-primary-response, got " +:+ typeOf tmp)
  end.

(** getPrimaryResponseInfo gets the x-primary-response extension data
    from the OperationDefinition; [None] is the nil pointer. *)
Definition getPrimaryResponseInfo (op : OperationDefinition)
  : result (option primaryResponseInfo) :=
  match openapi3.Extensions (Spec op) !! "x-primary-response" with
  | Some (openapi3.RawMessage msg) =>
      m ← orPanic (json_Unmarshal msg);
      statusCode ← requiredString m "status-code";
      contentType ← requiredString m "content-type";
      match m !! "metadata-properties" with
      | None => Ok (Some (mkPrimaryResponseInfo statusCode contentType []))
      | Some (VSlice props) =>
          metadataProperties ← metadataPropertiesLoop props 0 [];
          Ok (Some (mkPrimaryResponseInfo statusCode contentType
                      metadataProperties))
      | Some tmp =>
          Panic ("expected []interface{} for metadata-properties in "
                 +:+ "x-primary-response, got " +:+ typeOf tmp)
      end
  | _ => Ok None
  end.

Definition isPrimary (info : primaryResponseInfo)
    (td : ResponseTypeDefinition) : bool :=
  String.eqb (ResponseName td) (statusCode info)
  && String.eqb (ContentTypeName td) (contentType info).

(** getPrimaryResponseTypeDefinition inspects the metadata on the
    OperationDefinition and returns the corresponding primary
    ResponseTypeDefinition if it exists. *)
Definition getPrimaryResponseTypeDefinition (h : heap)
    (op : OperationDefinition) : result (option ResponseTypeDefinition) :=
  info ← getPrimaryResponseInfo op;
  match info with
  | None => Ok None
  | Some info =>
      tds ← getResponseTypeDefinitions h op;
      match find (isPrimary info) tds with
      | Some td => Ok (Some td)
      | None => Panic "no match found for primary response"
      end
  end.

(** The range loop of [getSingleNonMetadataProperty].  The file is
    written against the kin-openapi API of 2021-22 (raw-JSON extensions,
    [Responses] as a map), that is for Go releases before 1.22, where
    [for _, prop := range ...] declares ONE variable [prop] that every
    iteration assigns.  [ret = &prop] therefore stores the address of
    that variable, not of the element: the state of the loop is the
    current content of [prop] and whether [ret] is that address or nil. *)
Fixpoint getSingleNonMetadataProperty_loop (info : primaryResponseInfo)
    (rest : list Property) (prop : option Property) (ret : bool)
  : option Property :=
  match rest with
  | [] => if ret then prop else None                (* return ret *)
  | elem :: rest' =>
      (* prop = elem *)
      if negb (stringSliceContains (metadataProperties info)
                 (JsonFieldName elem))
      then
        if ret then None                             (* return nil *)
        else getSingleNonMetadataProperty_loop info rest' (Some elem) true
      else getSingleNonMetadataProperty_loop info rest' (Some elem) ret
  end.

(** getSingleNonMetadataProperty tries to get the single property in the
    TypeDefinition that was not marked as metadata by the
    x-primary-response extension.  The result is what the returned
    pointer refers to when the function returns. *)
Definition getSingleNonMetadataProperty (td : TypeDefinition)
    (info : primaryResponseInfo) : option Property :=
  getSingleNonMetadataProperty_loop info
    (Properties (TypeDefinition_Schema td)) None false.

(** isFlatTypeDefinition checks if the property count on the
    TypeDefinition is 0. *)
Definition isFlatTypeDefinition (td : TypeDefinition) : bool :=
  Nat.eqb (length (Properties (TypeDefinition_Schema td))) 0.

(** The loop [for propName := range osc.Properties] with its [delete]:
    every key of the map is visited once, whatever the order. *)
Definition purgeMetadata (info : primaryResponseInfo)
    (properties : gmap string openapi3.SchemaRef)
  : gmap string openapi3.SchemaRef :=
  fold_left
    (λ acc propName,
       if stringSliceContains (metadataProperties info) propName
       then delete propName acc else acc)
    (map_to_list properties).*1 properties.

Definition nilDereference : string :=
  "runtime error: invalid memory address or nil pointer dereference".

(** asReducedTypeDefinition makes a copy of the existing TypeDefinition
    where properties marked as metadata are purged from the Schema.
    [osc := td.Schema.OAPISchema] copies the pointer, so the [delete]s
    act on the object in the store; the store after the call is the
    second component. *)
Definition asReducedTypeDefinition (td : ResponseTypeDefinition)
    (info : primaryResponseInfo) (h : heap)
  : result TypeDefinition * heap :=
  let tdef := ResponseTypeDefinition_TypeDefinition td in
  match getSingleNonMetadataProperty tdef info with
  | Some prop =>
      (Ok (mkTypeDefinition (JsonFieldName prop) (JsonFieldName prop)
             (Property_Schema prop)), h)
  | None =>
      match OAPISchema (TypeDefinition_Schema tdef) with
      | None => (Panic nilDereference, h)
      | Some osc =>
          match h !! osc with
          | None => (Panic nilDereference, h)
          | Some schema =>
              let h' :=
                <[osc := openapi3.mkSchema (openapi3.Type_ schema)
                           (purgeMetadata info (openapi3.Properties schema))]> h in
              (sc ← orPanic
                      (GenerateGoSchema h' (openapi3.mkSchemaRef EmptyString (Some osc))
                         (Path (TypeDefinition_Schema tdef)));
               Ok (mkTypeDefinition (TypeName tdef) (JsonName tdef) sc),
               h')
          end
      end
  end.

(** isFlatTypeDefinitionAfterReduction checks if the given
    ResponseTypeDefinition would be a flat type after reduction. *)
Definition isFlatTypeDefinitionAfterReduction (td : ResponseTypeDefinition)
    (info : primaryResponseInfo) (h : heap) : result bool * heap :=
  let '(r, h') := asReducedTypeDefinition td info h in
  (isFlatTypeDefinition <$> r, h').

(** genReturnTypeName works similarly to genResponseTypeName, and
    substitutes the "flat" name for the response name if possible. *)
Definition genReturnTypeName (h : heap) (op : OperationDefinition)
  : result string :=
  let defaultName :=
    "*" +:+ UppercaseFirstCharacter (genResponseTypeName (OperationId op)) in
  td ← getPrimaryResponseTypeDefinition h op;
  match td with
  | None => Ok defaultName
  | Some td =>
      info ← getPrimaryResponseInfo op;
      match info with
      | None => Panic nilDereference
      | Some info =>
          match getSingleNonMetadataProperty
                  (ResponseTypeDefinition_TypeDefinition td) info with
          | None => Ok defaultName
          | Some prop => Ok (GoTypeDef prop)
          end
      end
  end.

End Codegen.

(** ** What the specification asks of [getSingleNonMetadataProperty] *)

(** The properties of a schema that the directive does not mark as
    metadata. *)
Definition nonMetadataProperties (info : primaryResponseInfo)
    (props : list Property) : list Property :=
  List.filter
    (λ p, negb (stringSliceContains (metadataProperties info) (JsonFieldName p)))
    props.

(** Following the documentation of the function: the property if there is
    exactly one that is not metadata, nothing otherwise. *)
Definition theSingleNonMetadataProperty (td : TypeDefinition)
    (info : primaryResponseInfo) : option Property :=
  match nonMetadataProperties info (Properties (TypeDefinition_Schema td)) with
  | [p] => Some p
  | _ => None
  end.

(** The last element of [rest], or [prop] when [rest] is empty: the content
    of a range variable after the loop. *)
Definition lastOr (prop : option Property) (rest : list Property)
  : option Property :=
  match last rest with
  | Some p => Some p
  | None => prop
  end.

(** Whether a content type reaches the [default:] branch of the switch. *)
Definition unrecognized (contentTypeName : string) : bool :=
  match classify contentTypeName with
  | Some _ => false
  | None => true
  end.

(** The content type whose stub is written last for a response: the last
    one, in sorted order, that no decoder handles. *)
Definition lastUnrecognized (content : gmap string openapi3.MediaType)
  : option string :=
  last (List.filter unrecognized (SortedContentKeys content)).

(** [clause] is the stub of the response [responseName] of [op]: the
    no-content stub of a response without content, or the unsupported
    stub of the last unrecognized content type of a response with
    content. *)
Definition isStubOf (op : OperationDefinition) (responseName clause : string)
  : Prop :=
  ∃ responseRef value,
    openapi3.Responses (Spec op) !! responseName = Some responseRef
    ∧ openapi3.ResponseRef_Value responseRef = Some value
    ∧ ((size (openapi3.Content value) = 0
        ∧ clause = unhandledClause responseName noContentAction)
       ∨ (size (openapi3.Content value) ≠ 0
          ∧ ∃ contentTypeName,
              lastUnrecognized (openapi3.Content value) = Some contentTypeName
              ∧ clause = unhandledClause responseName
                           (unsupportedAction contentTypeName))).

(** The number of properties of the schema of a type definition. *)
Definition propertyCount (td : ResponseTypeDefinition) : nat :=
  length (Properties (TypeDefinition_Schema
                        (ResponseTypeDefinition_TypeDefinition td))).

Definition resolvedPropertyCount (r : result (option ResponseTypeDefinition))
  : result (option nat) :=
  match r with
  | Ok td => Ok (propertyCount <$> td)
  | Panic msg => Panic msg
  end.

(** A value that is not a string, and one that is not an array. *)
Definition notString (v : GoValue) : Prop := ∀ s, v ≠ VString s.

Definition notSlice (v : GoValue) : Prop := ∀ elems, v ≠ VSlice elems.

(** The fault of a decoded directive and the message that reports it.
    The keys are examined in the order [status-code], [content-type],
    [metadata-properties]; the message names the first key at fault, the
    type of the value found under it and, for an element of
    [metadata-properties], the index of the first element that is not a
    string. *)
Inductive directiveFault (m : gmap string GoValue) : string → Prop :=
  | StatusCodeMissing :
      m !! "status-code" = None →
      directiveFault m "no status-code key in x-primary-response"
  | StatusCodeNotString tmp :
      m !! "status-code" = Some tmp → notString tmp →
      directiveFault m
        ("expected string for status-code in x-primary-response, got "
         +:+ typeOf tmp)
  | ContentTypeMissing sc :
      m !! "status-code" = Some (VString sc) →
      m !! "content-type" = None →
      directiveFault m "no content-type key in x-primary-response"
  | ContentTypeNotString sc tmp :
      m !! "status-code" = Some (VString sc) →
      m !! "content-type" = Some tmp → notString tmp →
      directiveFault m
        ("expected string for content-type in x-primary-response, got "
         +:+ typeOf tmp)
  | MetadataNotSlice sc ct tmp :
      m !! "status-code" = Some (VString sc) →
      m !! "content-type" = Some (VString ct) →
      m !! "metadata-properties" = Some tmp → notSlice tmp →
      directiveFault m
        ("expected []interface{} for metadata-properties in "
         +:+ "x-primary-response, got " +:+ typeOf tmp)
  | MetadataElementNotString sc ct pre propAny rest :
      m !! "status-code" = Some (VString sc) →
      m !! "content-type" = Some (VString ct) →
      m !! "metadata-properties"
      = Some (VSlice ((VString <$> pre) ++ propAny :: rest)) →
      notString propAny →
      directiveFault m
        ("expected string for metadata-properties element "
         +:+ pretty (length pre) +:+ ", got " +:+ typeOf propAny).

(** When primary-response processing panics with [msg]: [json.Unmarshal]
    fails on the directive with that error; or the decoded directive has
    the fault that [msg] reports; or the directive is read and
    [GetResponseTypeDefinitions] fails with that error; or the directive
    is read, no type definition has its status code and content type, and
    [msg] is the no-match text. *)
Definition primaryResponsePanicText
    (GetResponseTypeDefinitions :
       heap → OperationDefinition → string + list ResponseTypeDefinition)
    (json_Unmarshal : string → string + gmap string GoValue)
    (h : heap) (op : OperationDefinition) (msg : string) : Prop :=
  (∃ raw, openapi3.Extensions (Spec op) !! "x-primary-response"
          = Some (openapi3.RawMessage raw)
          ∧ json_Unmarshal raw = inl msg)
  ∨ (∃ raw m, openapi3.Extensions (Spec op) !! "x-primary-response"
              = Some (openapi3.RawMessage raw)
              ∧ json_Unmarshal raw = inr m
              ∧ directiveFault m msg)
  ∨ (∃ info, getPrimaryResponseInfo json_Unmarshal op = Ok (Some info)
             ∧ GetResponseTypeDefinitions h op = inl msg)
  ∨ (∃ info tds,
       getPrimaryResponseInfo json_Unmarshal op = Ok (Some info)
       ∧ GetResponseTypeDefinitions h op = inr tds
       ∧ Forall (λ td, ¬ (ResponseName td = statusCode info
                          ∧ ContentTypeName td = contentType info)) tds
       ∧ msg = "no match found for primary response").

(** The same operation under another identifier. *)
Definition withOperationId (operationId : string) (op : OperationDefinition)
  : OperationDefinition :=
  mkOperationDefinition operationId (OperationPath op) (Spec op).

(** [strings.Contains(s, substr)]. *)
Definition strings_Contains (s substr : string) : bool :=
  match String.index 0 substr s with
  | Some _ => true
  | None => false
  end.

(** ** Sample operations *)

Module Samples.

(** Stand-ins for the helpers of the other files, for running the model. *)
Definition TypeDecl (s : Schema) : string := GoType s.

Definition GoTypeDef (p : Property) : string :=
  if Required p then GoType (Property_Schema p)
  else "*" +:+ GoType (Property_Schema p).

Definition UppercaseFirstCharacter (s : string) : string :=
  match s with
  | EmptyString => EmptyString
  | String c rest =>
      let n := nat_of_ascii c in
      if Nat.leb 97 n && Nat.leb n 122
      then String (ascii_of_nat (n - 32)) rest
      else s
  end.

Definition scalar (goType : string) : Schema := mkSchema goType [] None [].

Definition rtd (typeName : string) (schema : Schema)
    (contentTypeName responseName : string) : ResponseTypeDefinition :=
  mkResponseTypeDefinition (mkTypeDefinition typeName typeName schema)
    contentTypeName responseName.

Definition response (contentTypes : list string) : openapi3.ResponseRef :=
  openapi3.mkResponseRef EmptyString
    (Some (openapi3.mkResponse
             (list_to_map ((λ c, (c, openapi3.mkMediaType None)) <$> contentTypes)))).

Definition operation (operationId : string)
    (extensions : list (string * openapi3.Extension))
    (responses : list (string * openapi3.ResponseRef)) : OperationDefinition :=
  mkOperationDefinition operationId ("/" +:+ operationId)
    (openapi3.mkOperation (list_to_map extensions) (list_to_map responses)).

(** An operation that declares [2XX] with JSON and [200] with XML. *)
Definition td_2XX_json : ResponseTypeDefinition :=
  rtd "JSON2XX" (scalar "Thing") "application/json" "2XX".
Definition td_200_xml : ResponseTypeDefinition :=
  rtd "XML200" (scalar "Thing") "application/xml" "200".

Definition getThing : OperationDefinition :=
  operation "getThing" []
    [("200", response ["application/xml"]);
     ("2XX", response ["application/json"])].

(** An operation whose [default] response declares two content types that
    no decoder handles, next to JSON, and whose [204] has no content. *)
Definition td_default_json : ResponseTypeDefinition :=
  rtd "JSONDefault" (scalar "Error") "application/json" "default".
Definition td_204 : ResponseTypeDefinition :=
  rtd "R204" (scalar "Empty") EmptyString "204".

Definition getBlob : OperationDefinition :=
  operation "getBlob" []
    [("204", response []);
     ("default", response ["application/octet-stream"; "application/json";
                           "text/plain"])].

(** Raw JSON of directives, and a decoder that knows these texts. *)
Definition jstr (s : string) : string := dq +:+ s +:+ dq.

Definition directive_200_json_status : string :=
  "{" +:+ jstr "status-code" +:+ ":" +:+ jstr "200" +:+ ","
  +:+ jstr "content-type" +:+ ":" +:+ jstr "application/json" +:+ ","
  +:+ jstr "metadata-properties" +:+ ":[" +:+ jstr "status" +:+ "]}".

Definition directive_200_json_ok : string :=
  "{" +:+ jstr "status-code" +:+ ":" +:+ jstr "200" +:+ ","
  +:+ jstr "content-type" +:+ ":" +:+ jstr "application/json" +:+ ","
  +:+ jstr "metadata-properties" +:+ ":[" +:+ jstr "ok" +:+ "]}".

Definition directive_404_json : string :=
  "{" +:+ jstr "status-code" +:+ ":" +:+ jstr "404" +:+ ","
  +:+ jstr "content-type" +:+ ":" +:+ jstr "application/json" +:+ "}".

Definition directive_no_status : string :=
  "{" +:+ jstr "content-type" +:+ ":" +:+ jstr "application/json" +:+ "}".

Definition json_Unmarshal (raw : string) : string + gmap string GoValue :=
  if String.eqb raw directive_200_json_status then
    inr (list_to_map [("status-code", VString "200");
                      ("content-type", VString "application/json");
                      ("metadata-properties", VSlice [VString "status"])])
  else if String.eqb raw directive_200_json_ok then
    inr (list_to_map [("status-code", VString "200");
                      ("content-type", VString "application/json");
                      ("metadata-properties", VSlice [VString "ok"])])
  else if String.eqb raw directive_404_json then
    inr (list_to_map [("status-code", VString "404");
                      ("content-type", VString "application/json")])
  else if String.eqb raw directive_no_status then
    inr (list_to_map [("content-type", VString "application/json")])
  else inl "unexpected end of JSON input".

(** A primary response [200] whose object has the properties [data] and
    [status], the directive marking [status] as metadata. *)
Definition prop_data : Property := mkProperty "data" (scalar "[]Item") true.
Definition prop_status : Property := mkProperty "status" (scalar "string") true.

Definition td_list_200 : ResponseTypeDefinition :=
  rtd "JSON200" (mkSchema "struct" [prop_data; prop_status] None [])
    "application/json" "200".

Definition listItems : OperationDefinition :=
  operation "listItems"
    [("x-primary-response", openapi3.RawMessage directive_200_json_status)]
    [("200", response ["application/json"])].

(** A primary response [200] with the properties [ok], [tests] and
    [total], declared by the schema object at address 1, the directive
    marking [ok] as metadata. *)
Definition prop_ok : Property := mkProperty "ok" (scalar "bool") true.
Definition prop_tests : Property := mkProperty "tests" (scalar "[]Test") true.
Definition prop_total : Property := mkProperty "total" (scalar "int") true.

Definition declared_schema : openapi3.Schema :=
  openapi3.mkSchema "object"
    (list_to_map [("ok", openapi3.mkSchemaRef EmptyString None);
                  ("tests", openapi3.mkSchemaRef EmptyString None);
                  ("total", openapi3.mkSchemaRef EmptyString None)]).

Definition store : heap := {[ 1%positive := declared_schema ]}.

Definition td_tests_200 : ResponseTypeDefinition :=
  rtd "JSON200"
    (mkSchema "struct" [prop_ok; prop_tests; prop_total] (Some 1%positive) ["200"])
    "application/json" "200".

Definition info_ok : primaryResponseInfo :=
  mkPrimaryResponseInfo "200" "application/json" ["ok"].

Definition getTests : OperationDefinition :=
  operation "getTests"
    [("x-primary-response", openapi3.RawMessage directive_200_json_ok)]
    [("200", response ["application/json"])].

(** Modelled from the spec: [GetResponseTypeDefinitions] is declared in
    operations.go, outside this file.  Type definitions are derived
    views, computed afresh at every call from what the operation declares:
    here the one response of [getTests], with one property for each
    property of the schema object at address 1. *)
Definition derivedProperty (name : string) : Property :=
  mkProperty name (scalar "interface{}") true.

Definition GetResponseTypeDefinitions (h : heap) (op : OperationDefinition)
  : string + list ResponseTypeDefinition :=
  match h !! 1%positive with
  | Some schema =>
      inr [rtd "JSON200"
             (mkSchema "struct"
                (derivedProperty <$> SortedStringKeys (openapi3.Properties schema))
                (Some 1%positive) ["200"])
             "application/json" "200"]
  | None => inl "response schema not found"
  end.

(** An operation without the extension, one whose directive lacks
    [status-code], and one whose directive names a response that the
    operation does not declare. *)
Definition getCat : OperationDefinition :=
  operation "getCat" [] [("200", response ["application/json"])].

Definition getDog : OperationDefinition :=
  operation "getDog"
    [("x-primary-response", openapi3.RawMessage directive_no_status)]
    [("200", response ["application/json"])].

Definition getBird : OperationDefinition :=
  operation "getBird"
    [("x-primary-response", openapi3.RawMessage directive_404_json)]
    [("200", response ["application/json"]); ("default", response [])].

Definition td_bird_200 : ResponseTypeDefinition :=
  rtd "JSON200" (scalar "Bird") "application/json" "200".

End Samples.

(** ** The remaining helpers of the file *)

(** [strings.Join(elems, sep)]. *)
Definition strings_Join (elems : list string) (sep : string) : string :=
  String.concat sep elems.

Section Parameters.

(** [ParameterDefinition] and its methods are declared in operations.go. *)
Variable ParameterDefinition : Type.
Variable GoVariableName : ParameterDefinition → string.
Variable TypeDef : ParameterDefinition → string.

(** This function takes an array of Parameter definition, and generates a
    valid Go parameter declaration from them, eg:
    [, foo int, bar string, baz float32]. *)
Definition genParamArgs (params : list ParameterDefinition) : string :=
  if Nat.eqb (length params) 0 then EmptyString
  else ", " +:+ strings_Join
                  ((λ p, GoVariableName p +:+ " " +:+ TypeDef p) <$> params)
                  ", ".

(** The same with the types only: [, int, string, float32]. *)
Definition genParamTypes (params : list ParameterDefinition) : string :=
  if Nat.eqb (length params) 0 then EmptyString
  else ", " +:+ strings_Join (TypeDef <$> params) ", ".

(** The same with the names only: [, foo, bar, baz]. *)
Definition genParamNames (params : list ParameterDefinition) : string :=
  if Nat.eqb (length params) 0 then EmptyString
  else ", " +:+ strings_Join (GoVariableName <$> params) ", ".

End Parameters.

(** genResponsePayload generates the payload returned at the end of each
    client request function. *)
Definition genResponsePayload (UppercaseFirstCharacter : string → string)
    (operationID : string) : string :=
  "&" +:+ genResponseTypeName UppercaseFirstCharacter operationID +:+ "{" +:+ nl
  +:+ "Body: bodyBytes," +:+ nl
  +:+ "HTTPResponse: rsp," +:+ nl
  +:+ "}".

(** This outputs a string array. *)
Definition toStringArray (sarr : list string) : string :=
  "[]string{" +:+ dq +:+ strings_Join sarr (dq +:+ "," +:+ dq) +:+ dq +:+ "}".

(** The replacer of newline by nothing, built by [strings.NewReplacer],
    applied to [s]: every newline byte is dropped. *)
Fixpoint stripNewLines (s : string) : string :=
  match s with
  | EmptyString => EmptyString
  | String c rest =>
      if Ascii.eqb c "010"%char then stripNewLines rest
      else String c (stripNewLines rest)
  end.

(** ** What one type definition contributes to the switch *)

(** The handled case of a type definition, with its sort key: its response
    is declared with a value and with content, its type is not
    [interface{}], and its own content type is one of the response's and
    has a decoder. *)
Definition handledCase (TypeDecl : Schema → string) (op : OperationDefinition)
    (td : ResponseTypeDefinition) : option (string * string) :=
  match openapi3.Responses (Spec op) !! ResponseName td with
  | Some responseRef =>
      match openapi3.ResponseRef_Value responseRef with
      | Some value =>
          if Nat.eqb (size (openapi3.Content value)) 0 then None
          else if String.eqb
                    (TypeName (ResponseTypeDefinition_TypeDefinition td))
                    "interface{}" then None
          else
            match openapi3.Content value !! ContentTypeName td,
                  classify (ContentTypeName td) with
            | Some _, Some c =>
                Some (buildUnmarshalCase td (unmarshalAction TypeDecl c td)
                        (codecName c))
            | _, _ => None
            end
      | None => None
      end
  | None => None
  end.

(** The stub that a type definition writes for its response, if any. *)
Definition stubCase (op : OperationDefinition) (td : ResponseTypeDefinition)
  : option string :=
  match openapi3.Responses (Spec op) !! ResponseName td with
  | Some responseRef =>
      match openapi3.ResponseRef_Value responseRef with
      | Some value =>
          if Nat.eqb (size (openapi3.Content value)) 0
          then Some (unhandledClause (ResponseName td) noContentAction)
          else if String.eqb
                    (TypeName (ResponseTypeDefinition_TypeDefinition td))
                    "interface{}" then None
          else
            (λ contentTypeName,
               unhandledClause (ResponseName td)
                 (unsupportedAction contentTypeName))
              <$> lastUnrecognized (openapi3.Content value)
      | None => None
      end
  | None => None
  end.

(** Whether the response of a type definition is declared without a
    value, and the line written to [os.Stderr] for it. *)
Definition hasNilValue (op : OperationDefinition) (td : ResponseTypeDefinition)
  : bool :=
  match openapi3.Responses (Spec op) !! ResponseName td with
  | Some responseRef =>
      match openapi3.ResponseRef_Value responseRef with
      | Some _ => false
      | None => true
      end
  | None => false
  end.

Definition nilValueLine (op : OperationDefinition)
    (td : ResponseTypeDefinition) : string :=
  "Response " +:+ OperationId op +:+ "." +:+ ResponseName td
  +:+ " has nil value" +:+ nl.

(** The sort key of the handled case of a decoder and a response name. *)
Definition handledKey (c : codec) (responseName : string) : string :=
  prefixLeastSpecific +:+ "." +:+ codecName c +:+ "." +:+ responseName.

(** The bytes of a string. *)
Definition bytesOf (s : string) : list ascii := list_ascii_of_string s.

(** A decimal digit, and a status code of three digits. *)
Definition isDigit (c : ascii) : bool :=
  Nat.leb 48 (nat_of_ascii c) && Nat.leb (nat_of_ascii c) 57.

Definition statusCodeName (hundreds tens units : ascii) : string :=
  String hundreds (String tens (String units EmptyString)).

Definition statusClassName (hundreds : ascii) : string :=
  String hundreds "XX".

(** Sample inputs for the helpers above. *)
Module Cases.

Record parameter := mkParameter { paramName : string; paramType : string }.

Definition params : list parameter :=
  [mkParameter "foo" "int"; mkParameter "bar" "string"].

Definition td_200_json : ResponseTypeDefinition :=
  Samples.rtd "JSON200" (Samples.scalar "Thing") "application/json" "200".

Definition td_200_xjson : ResponseTypeDefinition :=
  Samples.rtd "XJSON200" (Samples.scalar "Other") "text/x-json" "200".

Definition td_404_json : ResponseTypeDefinition :=
  Samples.rtd "JSON404" (Samples.scalar "Error") "application/json" "404".

(** Both JSON content types on the response [200]. *)
Definition getPair : OperationDefinition :=
  Samples.operation "getPair" []
    [("200", Samples.response ["application/json"; "text/x-json"])].

(** A response without a value. *)
Definition getGhost : OperationDefinition :=
  Samples.operation "getGhost" []
    [("200", openapi3.mkResponseRef "#/components/responses/Ghost" None)].

(** A primary response whose type is a reference: no properties, no
    schema object. *)
Definition td_ref_200 : ResponseTypeDefinition :=
  Samples.rtd "JSON200" (Samples.scalar "externalRef0.Thing")
    "application/json" "200".

(** A primary response with a single property. *)
Definition td_single_200 : ResponseTypeDefinition :=
  Samples.rtd "JSON200"
    (mkSchema "struct" [Samples.prop_ok; Samples.prop_tests] None ["200"])
    "application/json" "200".

(** A schema generator that fails. *)
Definition failingGenerateGoSchema (h : heap) (sref : openapi3.SchemaRef)
    (path : list string) : string + Schema :=
  inl "error generating Go schema".

(** A directive, as decoded, whose third metadata property is a number,
    and a decoder that returns a given map. *)
Definition decoded_bad_metadata : gmap string GoValue :=
  list_to_map [("status-code", VString "200");
               ("content-type", VString "application/json");
               ("metadata-properties",
                VSlice [VString "ok"; VString "total"; VFloat64 "3"; VNil])].

Definition decoded_good : gmap string GoValue :=
  list_to_map [("status-code", VString "200");
               ("content-type", VString "application/json");
               ("metadata-properties",
                VSlice (VString <$> ["ok"; "total"]))].

Definition decodeAs (m : gmap string GoValue) (raw : string)
  : string + gmap string GoValue :=
  inr m.

Definition withDirective : OperationDefinition :=
  Samples.operation "withDirective"
    [("x-primary-response", openapi3.RawMessage "{}")]
    [("200", Samples.response ["application/json"; "text/x-json"])].

(** The status [200] and its class, both with JSON. *)
Definition td_2XX_json : ResponseTypeDefinition :=
  Samples.rtd "JSON2XX" (Samples.scalar "Thing") "application/json" "2XX".

Definition getBoth : OperationDefinition :=
  Samples.operation "getBoth" []
    [("2XX", Samples.response ["application/json"]);
     ("200", Samples.response ["application/json"])].

End Cases.

(** * Properties *)

(** ** Strings and membership *)

Lemma string_app_length (a b : string) :
  String.length (a +:+ b) = String.length a + String.length b.
Proof. induction a as [|c a IH]; simpl; [done | by rewrite IH]. Qed.

Lemma string_app_inv_tail (s a b : string) : a +:+ s = b +:+ s → a = b.
Proof.
  revert b. induction a as [|c a IH]; intros [|d b] H; simpl in H.
  - done.
  - apply (f_equal String.length) in H.
    rewrite !string_app_length in H. simpl in H. lia.
  - apply (f_equal String.length) in H.
    rewrite !string_app_length in H. simpl in H. lia.
  - injection H as -> H. f_equal. by apply IH.
Qed.

Lemma StringInArray_elem_of str array :
  StringInArray str array = true ↔ str ∈ array.
Proof.
  induction array as [|elt rest IH]; simpl.
  - split; [done | intros H; by apply elem_of_nil in H].
  - rewrite elem_of_cons. destruct (String.eqb_spec elt str) as [->|Hne].
    + split; auto.
    + rewrite IH. split; [auto | intros [->|H]; done].
Qed.

Lemma stringSliceContains_elem_of haystack needle :
  stringSliceContains haystack needle = true ↔ needle ∈ haystack.
Proof.
  induction haystack as [|elt rest IH]; simpl.
  - split; [done | intros H; by apply elem_of_nil in H].
  - rewrite elem_of_cons. destruct (String.eqb_spec elt needle) as [->|Hne].
    + split; auto.
    + rewrite IH. split; [auto | intros [->|H]; done].
Qed.

(** Unfolds membership in a literal list into a disjunction of equations. *)
Ltac in_literal :=
  repeat first
    [ rewrite not_elem_of_cons | rewrite elem_of_cons | rewrite elem_of_nil ];
  repeat match goal with
    | H : _ |- _ =>
        first [ rewrite not_elem_of_cons in H | rewrite elem_of_cons in H
              | rewrite elem_of_nil in H ]
    end.

(** ** The status condition *)

Lemma getCondition_exact statusCodeVar responseName :
  responseName ≠ "default" →
  responseName ∉ ["1XX"; "2XX"; "3XX"; "4XX"; "5XX"] →
  getConditionOfResponseName statusCodeVar responseName
  = statusCodeVar +:+ " == " +:+ responseName.
Proof.
  intros Hd Hw. unfold getConditionOfResponseName.
  destruct (String.eqb_spec responseName "default"); [done|].
  in_literal.
  repeat match goal with
    | |- context [String.eqb responseName ?b] =>
        destruct (String.eqb_spec responseName b); [tauto|]
    end.
  reflexivity.
Qed.

(** C8: [getConditionOfResponseName] returns the always-true condition
    for the pattern [default], the condition [statusVar / 100 == d] for a
    pattern [dXX] with [d] from 1 to 5, and the equality
    [statusVar == pattern] for every other pattern. *)
Theorem getConditionOfResponseName_cases (statusCodeVar pattern : string) :
  (pattern = "default" →
     getConditionOfResponseName statusCodeVar pattern = "true")
  ∧ (∀ d, d ∈ ["1"; "2"; "3"; "4"; "5"] → pattern = d +:+ "XX" →
       getConditionOfResponseName statusCodeVar pattern
       = statusCodeVar +:+ " / 100 == " +:+ d)
  ∧ (pattern ≠ "default" →
     pattern ∉ ["1XX"; "2XX"; "3XX"; "4XX"; "5XX"] →
       getConditionOfResponseName statusCodeVar pattern
       = statusCodeVar +:+ " == " +:+ pattern).
Proof.
  split; [by intros ->|]. split; [|apply getCondition_exact].
  intros d Hd ->.
  repeat (apply elem_of_cons in Hd as [->|Hd]; [reflexivity|]).
  by apply elem_of_nil in Hd.
Qed.

(** Distinct response names have distinct conditions on the status code
    of the response. *)
Lemma getCondition_inj r r' :
  getConditionOfResponseName "rsp.StatusCode" r
  = getConditionOfResponseName "rsp.StatusCode" r' →
  r = r'.
Proof.
  unfold getConditionOfResponseName.
  destruct (String.eqb_spec r "default"), (String.eqb_spec r' "default");
    subst; try done.
  all: repeat match goal with
    | |- context [String.eqb ?a ?b] =>
        destruct (String.eqb_spec a b); subst; simpl
    end; try done.
  all: intros H; simplify_eq; done.
Qed.

Lemma unhandledKey_inj r r' : unhandledKey r = unhandledKey r' → r = r'.
Proof.
  unfold unhandledKey, caseClauseKeyOf. simpl. intros H. simplify_eq.
  apply getCondition_inj. by eapply string_app_inv_tail.
Qed.

(** ** Content types *)

Lemma classify_cases s :
  match classify s with
  | Some JSON => s ∈ contentTypesJSON
  | Some YAML => s ∈ contentTypesYAML ∧ (s ∉ contentTypesJSON)
  | Some XML =>
      s ∈ contentTypesXML ∧ (s ∉ contentTypesJSON) ∧ (s ∉ contentTypesYAML)
  | None =>
      (s ∉ contentTypesJSON) ∧ (s ∉ contentTypesYAML) ∧ (s ∉ contentTypesXML)
  end.
Proof.
  unfold classify.
  destruct (StringInArray s contentTypesJSON) eqn:HJ.
  { by apply StringInArray_elem_of. }
  destruct (StringInArray s contentTypesYAML) eqn:HY.
  { split; [by apply StringInArray_elem_of|].
    rewrite <-StringInArray_elem_of. congruence. }
  destruct (StringInArray s contentTypesXML) eqn:HX.
  { rewrite <-!StringInArray_elem_of. split; [done|split; congruence]. }
  rewrite <-!StringInArray_elem_of. repeat split; congruence.
Qed.

Lemma contentTypeStep_unrecognized TypeDecl td st s :
  classify s = None →
  TypeName (ResponseTypeDefinition_TypeDefinition td) ≠ "interface{}" →
  contentTypeStep TypeDecl td st s
  = addUnhandled (ResponseName td) (unsupportedAction s) st.
Proof.
  intros H Hty. unfold contentTypeStep. rewrite H.
  by destruct (String.eqb_spec
                 (TypeName (ResponseTypeDefinition_TypeDefinition td))
                 "interface{}").
Qed.

(** C7: the classification of content types is total: exactly
    application/json and text/x-json select the JSON decoder, exactly the
    four YAML types the YAML decoder, exactly application/xml and text/xml
    the XML decoder, and on every other string the switch writes the
    unsupported stub into the unhandled clauses; no outcome is a panic. *)
Theorem classification_total (TypeDecl : Schema → string) (s : string) :
  (classify s = Some JSON ↔ s = "application/json" ∨ s = "text/x-json")
  ∧ (classify s = Some YAML ↔
       s = "application/yaml" ∨ s = "application/x-yaml"
       ∨ s = "text/yaml" ∨ s = "text/x-yaml")
  ∧ (classify s = Some XML ↔ s = "application/xml" ∨ s = "text/xml")
  ∧ (classify s = None ↔
       s ∉ ["application/json"; "text/x-json"; "application/yaml";
            "application/x-yaml"; "text/yaml"; "text/x-yaml";
            "application/xml"; "text/xml"])
  ∧ (classify s = None →
     ∀ td st,
       TypeName (ResponseTypeDefinition_TypeDefinition td) ≠ "interface{}" →
       contentTypeStep TypeDecl td st s
       = addUnhandled (ResponseName td) (unsupportedAction s) st).
Proof.
  pose proof (classify_cases s) as Hc.
  unfold contentTypesJSON, contentTypesYAML, contentTypesXML,
    echo.MIMEApplicationJSON, echo.MIMEApplicationXML, echo.MIMETextXML in Hc.
  split; [|split; [|split; [|split]]].
  - split; [intros H; rewrite H in Hc; in_literal; tauto|].
    intros [->| ->]; reflexivity.
  - split; [intros H; rewrite H in Hc; in_literal; tauto|].
    intros [->|[->|[->| ->]]]; reflexivity.
  - split; [intros H; rewrite H in Hc; in_literal; tauto|].
    intros [->| ->]; reflexivity.
  - split; [intros H; rewrite H in Hc; in_literal; tauto|].
    intros H. destruct (classify s) as [[]|]; [exfalso; in_literal; tauto..|done].
  - intros H td st Hty. by apply contentTypeStep_unrecognized.
Qed.

(** ** Sorted keys *)

Lemma SortedStringKeys_Permutation {V} (m : gmap string V) :
  SortedStringKeys m ≡ₚ (map_to_list m).*1.
Proof. apply merge_sort_Permutation. Qed.

Lemma SortedStringKeys_NoDup {V} (m : gmap string V) :
  NoDup (SortedStringKeys m).
Proof.
  rewrite SortedStringKeys_Permutation. apply NoDup_fst_map_to_list.
Qed.

Lemma elem_of_SortedStringKeys {V} (m : gmap string V) k :
  k ∈ SortedStringKeys m ↔ is_Some (m !! k).
Proof.
  rewrite SortedStringKeys_Permutation, list_elem_of_fmap. split.
  - intros [[k' v] [-> Hin]]. apply elem_of_map_to_list in Hin. by exists v.
  - intros [v Hv]. exists (k, v). split; [done|]. by apply elem_of_map_to_list.
Qed.

Lemma SortedStringKeys_sorted {V} (m : gmap string V) :
  Sorted String.le (SortedStringKeys m).
Proof. apply Sorted_merge_sort, _. Qed.

Lemma NoDup_count_le_1 (k : string) (l : list string) :
  NoDup l → length (List.filter (String.eqb k) l) ≤ 1.
Proof.
  induction 1 as [|x l Hx Hl IH]; simpl; [lia|].
  destruct (String.eqb_spec k x) as [->|Hne]; [|done].
  assert (List.filter (String.eqb x) l = []) as ->; [|simpl; lia].
  clear IH Hl. induction l as [|y l IH]; simpl; [done|].
  apply not_elem_of_cons in Hx as [Hxy Hx].
  destruct (String.eqb_spec x y); [done|]. by apply IH.
Qed.

(** ** The unhandled group *)

(** One pass over the sorted content types of a response leaves in the
    unhandled clauses the stub of the last unrecognized content type:
    every stub of the pass is stored under the same key. *)
Lemma contentTypes_unhandled TypeDecl td l st :
  unhandledCaseClauses (fold_left (contentTypeStep TypeDecl td) l st)
  = if String.eqb (TypeName (ResponseTypeDefinition_TypeDefinition td))
         "interface{}"
    then unhandledCaseClauses st
    else match last (List.filter unrecognized l) with
         | Some contentTypeName =>
             <[unhandledKey (ResponseName td) :=
                 unhandledClause (ResponseName td)
                   (unsupportedAction contentTypeName)]>
               (unhandledCaseClauses st)
         | None => unhandledCaseClauses st
         end.
Proof.
  induction l as [|x l IH] using rev_ind.
  - simpl. by destruct (String.eqb _ _).
  - rewrite fold_left_app, List.filter_app. simpl fold_left.
    assert (List.filter unrecognized [x]
            = match classify x with Some _ => [] | None => [x] end) as ->.
    { simpl. unfold unrecognized. by destruct (classify x). }
    unfold contentTypeStep at 1.
    destruct (String.eqb _ "interface{}") eqn:Hty; [done|].
    destruct (classify x) as [c|] eqn:Hx.
    + rewrite app_nil_r.
      destruct (String.eqb (ContentTypeName td) x); [|done].
      destruct (buildUnmarshalCase _ _ _). simpl. by rewrite IH.
    + rewrite last_snoc. simpl. rewrite IH.
      destruct (last _); [by rewrite insert_insert_eq|done].
Qed.

Lemma typeDefinitionStep_stubs TypeDecl op st td :
  (∀ key clause, unhandledCaseClauses st !! key = Some clause →
     ∃ r, key = unhandledKey r ∧ isStubOf op r clause) →
  ∀ key clause,
    unhandledCaseClauses (typeDefinitionStep TypeDecl op st td) !! key
    = Some clause →
    ∃ r, key = unhandledKey r ∧ isStubOf op r clause.
Proof.
  intros Hst key clause. unfold typeDefinitionStep.
  destruct (openapi3.Responses (Spec op) !! ResponseName td)
    as [responseRef|] eqn:Href; [|apply Hst].
  destruct (openapi3.ResponseRef_Value responseRef) as [value|] eqn:Hval;
    [|apply Hst].
  destruct (Nat.eqb_spec (size (openapi3.Content value)) 0) as [Hsz|Hsz].
  - simpl. rewrite lookup_insert. case_decide as Hk; [|apply Hst].
    intros [= <-]. exists (ResponseName td). split; [done|].
    exists responseRef, value. auto.
  - rewrite contentTypes_unhandled.
    destruct (String.eqb _ _); [apply Hst|].
    destruct (last _) as [contentTypeName|] eqn:Hlast; [|apply Hst].
    rewrite lookup_insert. case_decide as Hk; [|apply Hst].
    intros [= <-]. exists (ResponseName td). split; [done|].
    exists responseRef, value. split; [done|]. split; [done|]. right.
    split; [done|]. by exists contentTypeName.
Qed.

Lemma collectCaseClauses_stubs TypeDecl op tds st :
  (∀ key clause, unhandledCaseClauses st !! key = Some clause →
     ∃ r, key = unhandledKey r ∧ isStubOf op r clause) →
  ∀ key clause,
    unhandledCaseClauses (fold_left (typeDefinitionStep TypeDecl op) tds st)
      !! key = Some clause →
    ∃ r, key = unhandledKey r ∧ isStubOf op r clause.
Proof.
  revert st. induction tds as [|td tds IH]; intros st Hst; [done|].
  simpl. apply IH. by apply typeDefinitionStep_stubs.
Qed.

(** C10: the unhandled group holds at most one entry per response name.
    Every key of the group is the least-specific prefix followed by the
    status condition of a response name, whatever the content type; the
    entry under the key of a response name is the no-content stub when
    the response declares no content and otherwise the stub of the LAST
    unrecognized content type in sorted order, the earlier ones having
    been overwritten. *)
Theorem unhandled_group_one_stub_per_response
    (TypeDecl : Schema → string) (op : OperationDefinition)
    (tds : list ResponseTypeDefinition) :
  let unhandled := unhandledCaseClauses (collectCaseClauses TypeDecl op tds) in
  (∀ responseName,
     length (List.filter (String.eqb (unhandledKey responseName))
               (SortedStringKeys unhandled)) ≤ 1)
  ∧ (∀ key, key ∈ SortedStringKeys unhandled →
       ∃ responseName, key = unhandledKey responseName)
  ∧ (∀ responseName clause,
       unhandled !! unhandledKey responseName = Some clause →
       isStubOf op responseName clause).
Proof.
  intros unhandled.
  assert (∀ key clause, unhandled !! key = Some clause →
            ∃ r, key = unhandledKey r ∧ isStubOf op r clause) as Hinv.
  { apply collectCaseClauses_stubs. intros key clause Hk.
    simpl in Hk. by rewrite lookup_empty in Hk. }
  split; [|split].
  - intros responseName. apply NoDup_count_le_1, SortedStringKeys_NoDup.
  - intros key [clause Hk]%elem_of_SortedStringKeys.
    destruct (Hinv _ _ Hk) as (r & -> & _). by exists r.
  - intros responseName clause Hk.
    destruct (Hinv _ _ Hk) as (r & Heq & Hstub).
    by apply unhandledKey_inj in Heq as ->.
Qed.

(** ** The order of the dispatch sequence *)

(** The handled group is listed before the unhandled group, each in the
    order of its sorted keys. *)
Lemma dispatchSequence_groups st :
  dispatchSequence st
  = groupSequence (handledCaseClauses st)
    ++ groupSequence (unhandledCaseClauses st).
Proof. reflexivity. Qed.

(** C1, at an operation that declares [2XX] with JSON and [200] with XML:
    the sort key of a handled case is the least-specific prefix, the
    decoder and the response name, so the case of the class [2XX] (key
    [9.json.2XX]) is listed before the case of the exact status [200]
    (key [9.xml.200]), in whichever order the two are declared. *)
Theorem class_case_listed_before_exact_case (TypeDecl : Schema → string) :
  let handled td c :=
    (buildUnmarshalCase td (unmarshalAction TypeDecl c td) (codecName c)).2 in
  SortedStringKeys
    (handledCaseClauses
       (collectCaseClauses TypeDecl Samples.getThing
          [Samples.td_200_xml; Samples.td_2XX_json]))
  = ["9.json.2XX"; "9.xml.200"]
  ∧ dispatchSequence
      (collectCaseClauses TypeDecl Samples.getThing
         [Samples.td_200_xml; Samples.td_2XX_json])
    = [handled Samples.td_2XX_json JSON; handled Samples.td_200_xml XML]
  ∧ dispatchSequence
      (collectCaseClauses TypeDecl Samples.getThing
         [Samples.td_2XX_json; Samples.td_200_xml])
    = [handled Samples.td_2XX_json JSON; handled Samples.td_200_xml XML]
  ∧ getConditionOfResponseName "rsp.StatusCode" (ResponseName Samples.td_2XX_json)
    = "rsp.StatusCode / 100 == 2"
  ∧ getConditionOfResponseName "rsp.StatusCode" (ResponseName Samples.td_200_xml)
    = "rsp.StatusCode == 200".
Proof. repeat split; vm_compute; reflexivity. Qed.

(** The same defect inside the unhandled group: the key is the prefix
    followed by the text of the condition, and [/] sorts before [=], so
    the stub of a class precedes the stub of an exact status. *)
Lemma class_stub_listed_before_exact_stub (TypeDecl : Schema → string) :
  dispatchSequence
    (collectCaseClauses TypeDecl
       (Samples.operation "ping" []
          [("200", Samples.response []); ("2XX", Samples.response [])])
       [Samples.rtd "R200" (Samples.scalar "Empty") EmptyString "200";
        Samples.rtd "R2XX" (Samples.scalar "Empty") EmptyString "2XX"])
  = [unhandledClause "2XX" noContentAction;
     unhandledClause "200" noContentAction].
Proof. vm_compute. reflexivity. Qed.

(** ** The single property that is not metadata *)

Lemma getSingleNonMetadataProperty_loop_spec info rest prop ret :
  getSingleNonMetadataProperty_loop info rest prop ret
  = match nonMetadataProperties info rest, ret with
    | [], true => lastOr prop rest
    | [_], false => last rest
    | _, _ => None
    end.
Proof.
  revert prop ret. induction rest as [|elem rest IH]; intros prop ret.
  - by destruct ret.
  - simpl. unfold lastOr. rewrite last_cons.
    destruct (negb _) eqn:Hmeta; simpl.
    + destruct ret;
        [by destruct (nonMetadataProperties info rest) as [|p [|q l]]|].
      rewrite IH. unfold lastOr.
      by destruct (nonMetadataProperties info rest) as [|p [|q l]].
    + rewrite IH. unfold lastOr.
      destruct (nonMetadataProperties info rest) as [|p [|q l]] eqn:Hnm;
        destruct ret; try done.
      * by destruct (last rest).
      * destruct (last rest) eqn:Hlast; [done|].
        apply last_None in Hlast. by subst rest.
Qed.

(** What the function returns: when exactly one property is not metadata,
    the LAST property of the schema, which is that property only when no
    metadata property follows it. *)
Lemma getSingleNonMetadataProperty_spec td info :
  getSingleNonMetadataProperty td info
  = match nonMetadataProperties info (Properties (TypeDefinition_Schema td)) with
    | [_] => last (Properties (TypeDefinition_Schema td))
    | _ => None
    end.
Proof.
  unfold getSingleNonMetadataProperty.
  rewrite getSingleNonMetadataProperty_loop_spec.
  by destruct (nonMetadataProperties _ _) as [|p [|q l]].
Qed.

(** The function returns a property exactly when the documentation asks
    for one. *)
Lemma getSingleNonMetadataProperty_is_Some td info :
  is_Some (getSingleNonMetadataProperty td info)
  ↔ is_Some (theSingleNonMetadataProperty td info).
Proof.
  rewrite getSingleNonMetadataProperty_spec. unfold theSingleNonMetadataProperty.
  destruct (nonMetadataProperties _ _) as [|p [|q l]] eqn:Hnm;
    [by split; intros [? ?]| |by split; intros [? ?]].
  split; [by eexists|]. intros _.
  destruct (last _) eqn:Hlast; [by eexists|].
  apply last_None in Hlast. by rewrite Hlast in Hnm.
Qed.

(** When the single property that is not metadata is the last property
    of the schema, the function returns it. *)
Lemma getSingleNonMetadataProperty_last td info p :
  theSingleNonMetadataProperty td info = Some p →
  last (Properties (TypeDefinition_Schema td)) = Some p →
  getSingleNonMetadataProperty td info = Some p.
Proof.
  rewrite getSingleNonMetadataProperty_spec. unfold theSingleNonMetadataProperty.
  by destruct (nonMetadataProperties _ _) as [|q [|q' l]].
Qed.

(** With no property or several properties outside the metadata, the name
    of the return type is the default one. *)
Lemma genReturnTypeName_not_flattenable
    GetResponseTypeDefinitions GoTypeDef UppercaseFirstCharacter json_Unmarshal
    h op td :
  getPrimaryResponseTypeDefinition GetResponseTypeDefinitions json_Unmarshal h op
  = Ok (Some td) →
  (∀ info, getPrimaryResponseInfo json_Unmarshal op = Ok (Some info) →
     theSingleNonMetadataProperty (ResponseTypeDefinition_TypeDefinition td) info
     = None) →
  genReturnTypeName GetResponseTypeDefinitions GoTypeDef UppercaseFirstCharacter
    json_Unmarshal h op
  = Ok ("*" +:+ UppercaseFirstCharacter
                  (genResponseTypeName UppercaseFirstCharacter (OperationId op))).
Proof.
  intros Htd Hnone. unfold genReturnTypeName. rewrite Htd. simpl.
  unfold getPrimaryResponseTypeDefinition in Htd.
  destruct (getPrimaryResponseInfo json_Unmarshal op) as [[info|]|] eqn:Hinfo;
    simpl in *; try done.
  specialize (Hnone info eq_refl).
  destruct (getSingleNonMetadataProperty _ info) as [prop|] eqn:Hget; [|done].
  assert (is_Some (theSingleNonMetadataProperty
                     (ResponseTypeDefinition_TypeDefinition td) info)) as [? Hs].
  { apply getSingleNonMetadataProperty_is_Some. by eexists. }
  congruence.
Qed.

(** C2, at a primary response with the properties [data] and [status]
    whose directive marks [status] as metadata: [data] is the one property
    outside the metadata, and the loop returns the address of its range
    variable, which holds [status] when the loop ends, so the name of the
    return type is the type of the metadata property [status]. *)
Theorem flattening_returns_last_property
    (GoTypeDef : Property → string) (UppercaseFirstCharacter : string → string) :
  let info := mkPrimaryResponseInfo "200" "application/json" ["status"] in
  let td := ResponseTypeDefinition_TypeDefinition Samples.td_list_200 in
  getPrimaryResponseInfo Samples.json_Unmarshal Samples.listItems = Ok (Some info)
  ∧ nonMetadataProperties info (Properties (TypeDefinition_Schema td))
    = [Samples.prop_data]
  ∧ theSingleNonMetadataProperty td info = Some Samples.prop_data
  ∧ getSingleNonMetadataProperty td info = Some Samples.prop_status
  ∧ genReturnTypeName (λ _ _, inr [Samples.td_list_200]) GoTypeDef
      UppercaseFirstCharacter Samples.json_Unmarshal ∅ Samples.listItems
    = Ok (GoTypeDef Samples.prop_status).
Proof. repeat split; vm_compute; reflexivity. Qed.

(** ** The directive *)

Lemma find_isPrimary_None info tds :
  Forall (λ td, ¬ (ResponseName td = statusCode info
                   ∧ ContentTypeName td = contentType info)) tds →
  find (isPrimary info) tds = None.
Proof.
  induction 1 as [|td tds Hno _ IH]; simpl; [done|].
  unfold isPrimary at 1.
  destruct (String.eqb_spec (ResponseName td) (statusCode info));
    destruct (String.eqb_spec (ContentTypeName td) (contentType info));
    simpl; tauto.
Qed.

(** C5: when the directive of an operation names a status code and
    content type that none of its response type definitions has,
    [getPrimaryResponseTypeDefinition] panics; it returns neither nil nor
    a type definition. *)
Theorem missing_match_is_fatal
    GetResponseTypeDefinitions json_Unmarshal (h : heap)
    (op : OperationDefinition) (info : primaryResponseInfo) :
  getPrimaryResponseInfo json_Unmarshal op = Ok (Some info) →
  (∀ tds, GetResponseTypeDefinitions h op = inr tds →
     Forall (λ td, ¬ (ResponseName td = statusCode info
                      ∧ ContentTypeName td = contentType info)) tds) →
  ∃ msg,
    getPrimaryResponseTypeDefinition GetResponseTypeDefinitions json_Unmarshal
      h op = Panic msg
    ∧ (∀ tds, GetResponseTypeDefinitions h op = inr tds →
         msg = "no match found for primary response").
Proof.
  intros Hinfo Hno. unfold getPrimaryResponseTypeDefinition.
  rewrite Hinfo. simpl. unfold getResponseTypeDefinitions.
  destruct (GetResponseTypeDefinitions h op) as [err|tds]; simpl.
  - by exists err.
  - rewrite (find_isPrimary_None info tds) by by apply Hno.
    by eexists.
Qed.

Lemma getPrimaryResponseInfo_not_raw json_Unmarshal op :
  (∀ msg, openapi3.Extensions (Spec op) !! "x-primary-response"
          ≠ Some (openapi3.RawMessage msg)) →
  getPrimaryResponseInfo json_Unmarshal op = Ok None.
Proof.
  intros H. unfold getPrimaryResponseInfo.
  destruct (openapi3.Extensions (Spec op) !! "x-primary-response")
    as [[msg|]|] eqn:Hext; try done.
  by destruct (H msg).
Qed.

(** C6: for an operation without the [x-primary-response] extension,
    [getPrimaryResponseInfo] returns nil without a panic and
    [genReturnTypeName] returns the name of the default, enveloped
    response type. *)
Theorem absent_directive_default_name
    GetResponseTypeDefinitions (GoTypeDef : Property → string)
    (UppercaseFirstCharacter : string → string) json_Unmarshal
    (h : heap) (op : OperationDefinition) :
  openapi3.Extensions (Spec op) !! "x-primary-response" = None →
  getPrimaryResponseInfo json_Unmarshal op = Ok None
  ∧ getPrimaryResponseTypeDefinition GetResponseTypeDefinitions json_Unmarshal
      h op = Ok None
  ∧ genReturnTypeName GetResponseTypeDefinitions GoTypeDef
      UppercaseFirstCharacter json_Unmarshal h op
    = Ok ("*" +:+ UppercaseFirstCharacter
                    (genResponseTypeName UppercaseFirstCharacter
                       (OperationId op))).
Proof.
  intros Hext.
  assert (getPrimaryResponseInfo json_Unmarshal op = Ok None) as Hinfo.
  { apply getPrimaryResponseInfo_not_raw. intros msg. by rewrite Hext. }
  unfold genReturnTypeName, getPrimaryResponseTypeDefinition.
  by rewrite Hinfo.
Qed.

(** ** The messages of the panics *)

Lemma metadataPropertiesLoop_strings (props : list string) i acc :
  metadataPropertiesLoop (VString <$> props) i acc = Ok (acc ++ props).
Proof.
  revert i acc. induction props as [|prop props IH]; intros i acc.
  - by rewrite app_nil_r.
  - cbn. rewrite IH. by rewrite <-app_assoc.
Qed.

Lemma metadataPropertiesLoop_first_other
    (pre : list string) (propAny : GoValue) (rest : list GoValue) i acc :
  (∀ s, propAny ≠ VString s) →
  metadataPropertiesLoop ((VString <$> pre) ++ propAny :: rest) i acc
  = Panic ("expected string for metadata-properties element "
           +:+ pretty (i + length pre) +:+ ", got " +:+ typeOf propAny).
Proof.
  intros Hno. revert i acc. induction pre as [|s pre IH]; intros i acc.
  - cbn. rewrite Nat.add_0_r. destruct propAny; try done. by destruct (Hno s).
  - cbn. rewrite IH. by rewrite Nat.add_succ_r.
Qed.

Lemma requiredString_Ok m key s :
  requiredString m key = Ok s ↔ m !! key = Some (VString s).
Proof.
  unfold requiredString. destruct (m !! key) as [tmp|]; [|by split].
  destruct tmp; split; intros H; by simplify_eq.
Qed.

Lemma requiredString_Panic m key msg :
  requiredString m key = Panic msg
  ↔ (m !! key = None ∧ msg = "no " +:+ key +:+ " key in x-primary-response")
    ∨ (∃ tmp, m !! key = Some tmp ∧ notString tmp
              ∧ msg = "expected string for " +:+ key
                      +:+ " in x-primary-response, got " +:+ typeOf tmp).
Proof.
  unfold requiredString, notString. destruct (m !! key) as [tmp|].
  - split.
    + intros H. right. exists tmp. split; [done|].
      destruct tmp; simplify_eq; by split.
    + intros [[? _]|(tmp' & [= <-] & Hno & ->)]; [done|].
      destruct tmp; try done. by destruct (Hno s).
  - split.
    + intros [= <-]. by left.
    + intros [[_ ->]|(tmp & ? & _)]; done.
Qed.

Lemma metadataPropertiesLoop_Panic props i acc msg :
  metadataPropertiesLoop props i acc = Panic msg →
  ∃ pre propAny rest,
    props = (VString <$> pre) ++ propAny :: rest ∧ notString propAny
    ∧ msg = "expected string for metadata-properties element "
            +:+ pretty (i + length pre) +:+ ", got " +:+ typeOf propAny.
Proof.
  revert i acc. induction props as [|propAny rest IH]; intros i acc; [done|].
  cbn. intros H.
  assert ((∃ prop, propAny = VString prop) ∨ notString propAny) as [[prop ->]|Hno].
  { unfold notString. destruct propAny; try (by right); left; by eexists. }
  - apply IH in H as (pre & v & rest' & -> & Hv & ->).
    exists (prop :: pre), v, rest'. split; [done|]. split; [done|].
    cbn [length]. by rewrite Nat.add_succ_r.
  - exists [], propAny, rest. split; [done|]. split; [done|].
    cbn [length]. rewrite Nat.add_0_r.
    destruct propAny as [|b|lit|s|elems|fields]; simplify_eq; try done.
    by destruct (Hno s).
Qed.

Lemma getPrimaryResponseInfo_Panic json_Unmarshal op msg :
  getPrimaryResponseInfo json_Unmarshal op = Panic msg
  ↔ (∃ raw, openapi3.Extensions (Spec op) !! "x-primary-response"
            = Some (openapi3.RawMessage raw)
            ∧ json_Unmarshal raw = inl msg)
    ∨ (∃ raw m, openapi3.Extensions (Spec op) !! "x-primary-response"
                = Some (openapi3.RawMessage raw)
                ∧ json_Unmarshal raw = inr m
                ∧ directiveFault m msg).
Proof.
  unfold getPrimaryResponseInfo.
  destruct (openapi3.Extensions (Spec op) !! "x-primary-response")
    as [[raw|]|] eqn:Hext.
  2,3: split; [done|]; intros [(? & ? & _)|(? & ? & ? & _)]; done.
  destruct (json_Unmarshal raw) as [err|m] eqn:Hjson; cbn.
  { split.
    - intros [= <-]. left. by exists raw.
    - intros [(raw' & [= <-] & Hj)|(raw' & m & [= <-] & Hj & _)];
        congruence. }
  split.
  - intros H. right. exists raw, m. split; [done|]. split; [done|].
    destruct (requiredString m "status-code") as [sc|e] eqn:Hsc; cbn in H.
    2:{ injection H as <-.
        apply requiredString_Panic in Hsc
          as [[Hm ->]|(tmp & Hm & Hno & ->)];
          [by apply StatusCodeMissing | by eapply StatusCodeNotString]. }
    apply requiredString_Ok in Hsc.
    destruct (requiredString m "content-type") as [ct|e] eqn:Hct; cbn in H.
    2:{ injection H as <-.
        apply requiredString_Panic in Hct
          as [[Hm ->]|(tmp & Hm & Hno & ->)];
          [by eapply ContentTypeMissing | by eapply ContentTypeNotString]. }
    apply requiredString_Ok in Hct.
    destruct (m !! "metadata-properties") as [tmp|] eqn:Hmeta; [|done].
    assert ((∃ props, tmp = VSlice props) ∨ notSlice tmp) as [[props ->]|Hno].
    { unfold notSlice. destruct tmp; try (by right); left; by eexists. }
    + destruct (metadataPropertiesLoop props 0 []) as [ps|e] eqn:Hloop;
        cbn in H; [done|].
      injection H as <-.
      apply metadataPropertiesLoop_Panic in Hloop
        as (pre & v & rest & -> & Hv & ->).
      by eapply MetadataElementNotString.
    + assert (msg = "expected []interface{} for metadata-properties in "
                    +:+ "x-primary-response, got " +:+ typeOf tmp) as ->.
      { destruct tmp; simplify_eq; try done. by destruct (Hno elems). }
      by eapply MetadataNotSlice.
  - intros [(raw' & [= <-] & Hj)|(raw' & m' & [= <-] & Hj & Hfault)];
      [congruence|].
    assert (m' = m) as -> by congruence.
    unfold requiredString.
    destruct Hfault as [Hsc|tmp Hsc Hno|sc Hsc Hct|sc tmp Hsc Hct Hno
                       |sc ct tmp Hsc Hct Hmeta Hno
                       |sc ct pre v rest Hsc Hct Hmeta Hno].
    + by rewrite Hsc.
    + rewrite Hsc. destruct tmp; try done. by destruct (Hno s).
    + by rewrite Hsc, Hct.
    + rewrite Hsc, Hct. cbn. destruct tmp; try done. by destruct (Hno s).
    + rewrite Hsc, Hct, Hmeta. cbn. destruct tmp; try done.
      by destruct (Hno elems).
    + rewrite Hsc, Hct, Hmeta. cbn.
      by rewrite metadataPropertiesLoop_first_other.
Qed.

Lemma find_isPrimary_None_iff info tds :
  find (isPrimary info) tds = None
  ↔ Forall (λ td, ¬ (ResponseName td = statusCode info
                     ∧ ContentTypeName td = contentType info)) tds.
Proof.
  split; [|apply find_isPrimary_None].
  induction tds as [|td tds IH]; [by constructor|]. cbn.
  destruct (isPrimary info td) eqn:Htd; [done|].
  intros H. constructor; [|by apply IH].
  intros [E1 E2]. unfold isPrimary in Htd.
  by rewrite E1, E2, !String.eqb_refl in Htd.
Qed.

(** C9 as stated fails: the panic for a directive without [status-code]
    does not carry the identifier of the operation, and the panic for a
    directive that names an undeclared response carries neither the
    identifier nor the field or the value that found no match. *)
Lemma panic_message_lacks_operation_id :
  getPrimaryResponseInfo Samples.json_Unmarshal Samples.getDog
  = Panic "no status-code key in x-primary-response"
  ∧ strings_Contains "no status-code key in x-primary-response"
      (OperationId Samples.getDog) = false
  ∧ getPrimaryResponseTypeDefinition (λ _ _, inr [Samples.td_bird_200])
      Samples.json_Unmarshal ∅ Samples.getBird
    = Panic "no match found for primary response"
  ∧ strings_Contains "no match found for primary response"
      (OperationId Samples.getBird) = false
  ∧ strings_Contains "no match found for primary response" "status-code"
    = false
  ∧ strings_Contains "no match found for primary response" "404" = false.
Proof. repeat split; vm_compute; reflexivity. Qed.

(** C9, amended: primary-response processing panics with [msg] exactly
    in these cases.  [json.Unmarshal] fails on the directive, and [msg]
    is its error.  The decoded directive is at fault, and [msg] names the
    first key at fault in the order [status-code], [content-type],
    [metadata-properties], with the type of the value found under that
    key and, for an element of [metadata-properties], the index of the
    first element that is not a string.  The directive is read and
    [GetResponseTypeDefinitions] fails, and [msg] is its error.  The
    directive is read and no type definition matches it, and [msg] is
    [no match found for primary response], which names no field.  The
    texts that the file builds do not carry the identifier of the
    operation: reading the directive gives the same outcome under any
    identifier, and so does the resolution whenever
    [GetResponseTypeDefinitions] does. *)
Theorem primary_response_panic_messages
    GetResponseTypeDefinitions json_Unmarshal (h : heap)
    (op : OperationDefinition) (msg : string) :
  (getPrimaryResponseTypeDefinition GetResponseTypeDefinitions json_Unmarshal
     h op = Panic msg
   ↔ primaryResponsePanicText GetResponseTypeDefinitions json_Unmarshal
       h op msg)
  ∧ (∀ operationId,
       getPrimaryResponseInfo json_Unmarshal (withOperationId operationId op)
       = getPrimaryResponseInfo json_Unmarshal op)
  ∧ (∀ operationId,
       GetResponseTypeDefinitions h (withOperationId operationId op)
       = GetResponseTypeDefinitions h op →
       getPrimaryResponseTypeDefinition GetResponseTypeDefinitions
         json_Unmarshal h (withOperationId operationId op)
       = getPrimaryResponseTypeDefinition GetResponseTypeDefinitions
           json_Unmarshal h op).
Proof.
  split; [|split; [done|]].
  2:{ intros operationId Hget.
      unfold getPrimaryResponseTypeDefinition, getResponseTypeDefinitions.
      by rewrite Hget. }
  unfold primaryResponsePanicText.
  pose proof (getPrimaryResponseInfo_Panic json_Unmarshal op msg) as Hinfo.
  unfold getPrimaryResponseTypeDefinition, getResponseTypeDefinitions.
  destruct (getPrimaryResponseInfo json_Unmarshal op) as [[info|]|e]; cbn.
  - destruct (GetResponseTypeDefinitions h op) as [err|tds]; cbn.
    + split.
      * intros [= <-]. right; right; left. by exists info.
      * intros [HA|[HB|[(info' & _ & Herr)|(info' & tds' & _ & Htds & _)]]].
        -- discriminate (proj2 Hinfo (or_introl HA)).
        -- discriminate (proj2 Hinfo (or_intror HB)).
        -- congruence.
        -- done.
    + destruct (find (isPrimary info) tds) as [td|] eqn:Hfind.
      * split; [done|].
        intros [HA|[HB|[(info' & _ & Herr)|(info' & tds' & Hi & Htds & Hno & _)]]].
        -- discriminate (proj2 Hinfo (or_introl HA)).
        -- discriminate (proj2 Hinfo (or_intror HB)).
        -- done.
        -- injection Hi as <-. injection Htds as <-.
           apply find_isPrimary_None_iff in Hno. congruence.
      * split.
        -- intros [= <-]. right; right; right. exists info, tds.
           by apply find_isPrimary_None_iff in Hfind.
        -- intros [HA|[HB|[(info' & _ & Herr)|(info' & tds' & _ & _ & _ & ->)]]].
           ++ discriminate (proj2 Hinfo (or_introl HA)).
           ++ discriminate (proj2 Hinfo (or_intror HB)).
           ++ done.
           ++ done.
  - split; [done|].
    intros [HA|[HB|[(info' & Hi & _)|(info' & tds' & Hi & _)]]].
    + discriminate (proj2 Hinfo (or_introl HA)).
    + discriminate (proj2 Hinfo (or_intror HB)).
    + done.
    + done.
  - split.
    + intros [= <-]. destruct (proj1 Hinfo eq_refl) as [HA|HB];
        [by left|by right; left].
    + intros [HA|[HB|[(info' & Hi & _)|(info' & tds' & Hi & _)]]].
      * by injection (proj2 Hinfo (or_introl HA)) as ->.
      * by injection (proj2 Hinfo (or_intror HB)) as ->.
      * done.
      * done.
Qed.

(** ** The store after a reduction *)

Lemma purge_fold_lookup (meta : list string) (l : list string)
    (m : gmap string openapi3.SchemaRef) (k : string) :
  fold_left
    (λ acc propName,
       if stringSliceContains meta propName then delete propName acc else acc)
    l m !! k
  = if stringSliceContains meta k && bool_decide (k ∈ l) then None else m !! k.
Proof.
  revert m. induction l as [|a l IH]; intros m; cbn [fold_left].
  - rewrite bool_decide_eq_false_2 by apply not_elem_of_nil.
    by rewrite andb_false_r.
  - rewrite IH. destruct (decide (k = a)) as [->|Hne].
    + rewrite (bool_decide_eq_true_2 (a ∈ a :: l)) by apply list_elem_of_here.
      destruct (stringSliceContains meta a); simpl; [|done].
      rewrite lookup_delete_eq. by destruct (bool_decide _).
    + assert (bool_decide (k ∈ a :: l) = bool_decide (k ∈ l)) as ->.
      { apply bool_decide_ext. rewrite elem_of_cons. tauto. }
      destruct (stringSliceContains meta a); [|done].
      by rewrite lookup_delete_ne.
Qed.

(** The purge removes exactly the properties marked as metadata. *)
Lemma purgeMetadata_lookup info properties k :
  purgeMetadata info properties !! k
  = if stringSliceContains (metadataProperties info) k then None
    else properties !! k.
Proof.
  unfold purgeMetadata. rewrite purge_fold_lookup.
  destruct (stringSliceContains _ k); simpl; [|done].
  case_bool_decide as Hk; [done|].
  destruct (properties !! k) as [v|] eqn:Hv; [|done].
  destruct Hk. apply list_elem_of_fmap. exists (k, v).
  split; [done|]. by apply elem_of_map_to_list.
Qed.

Lemma purgeMetadata_idemp info properties :
  purgeMetadata info (purgeMetadata info properties)
  = purgeMetadata info properties.
Proof.
  apply map_eq. intros k. rewrite !purgeMetadata_lookup.
  by destruct (stringSliceContains _ k).
Qed.

(** A reduction that flattens leaves the store as it is. *)
Lemma asReducedTypeDefinition_flat_store GenerateGoSchema td info h prop :
  getSingleNonMetadataProperty (ResponseTypeDefinition_TypeDefinition td) info
  = Some prop →
  asReducedTypeDefinition GenerateGoSchema td info h
  = (Ok (mkTypeDefinition (JsonFieldName prop) (JsonFieldName prop)
           (Property_Schema prop)), h).
Proof. intros H. unfold asReducedTypeDefinition. by rewrite H. Qed.

(** A reduction that cannot flatten overwrites the schema object that the
    type definition points to with its purged version. *)
Lemma asReducedTypeDefinition_store GenerateGoSchema td info h osc schema :
  getSingleNonMetadataProperty (ResponseTypeDefinition_TypeDefinition td) info
  = None →
  OAPISchema (TypeDefinition_Schema (ResponseTypeDefinition_TypeDefinition td))
  = Some osc →
  h !! osc = Some schema →
  (asReducedTypeDefinition GenerateGoSchema td info h).2
  = <[osc := openapi3.mkSchema (openapi3.Type_ schema)
               (purgeMetadata info (openapi3.Properties schema))]> h.
Proof.
  intros Hget Hosc Hh. unfold asReducedTypeDefinition.
  by rewrite Hget, Hosc, Hh.
Qed.

(** The declared schema changes as soon as it has a property that the
    directive marks as metadata. *)
Lemma asReducedTypeDefinition_mutates
    GenerateGoSchema td info h osc schema k :
  getSingleNonMetadataProperty (ResponseTypeDefinition_TypeDefinition td) info
  = None →
  OAPISchema (TypeDefinition_Schema (ResponseTypeDefinition_TypeDefinition td))
  = Some osc →
  h !! osc = Some schema →
  k ∈ metadataProperties info →
  is_Some (openapi3.Properties schema !! k) →
  (asReducedTypeDefinition GenerateGoSchema td info h).2 ≠ h.
Proof.
  intros Hget Hosc Hh Hk [v Hv] Heq.
  rewrite (asReducedTypeDefinition_store _ _ _ _ _ _ Hget Hosc Hh) in Heq.
  apply (f_equal (λ s, s !! osc)) in Heq.
  rewrite lookup_insert_eq, Hh in Heq. injection Heq as Heq.
  apply (f_equal (λ s, openapi3.Properties s !! k)) in Heq. simpl in Heq.
  rewrite purgeMetadata_lookup, Hv in Heq.
  apply stringSliceContains_elem_of in Hk. by rewrite Hk in Heq.
Qed.

(** Called again with the same arguments in the store that the first call
    left, the reduction returns what the first call returned and leaves
    that store as it is. *)
Lemma asReducedTypeDefinition_again GenerateGoSchema td info h :
  asReducedTypeDefinition GenerateGoSchema td info
    (asReducedTypeDefinition GenerateGoSchema td info h).2
  = asReducedTypeDefinition GenerateGoSchema td info h.
Proof.
  unfold asReducedTypeDefinition.
  destruct (getSingleNonMetadataProperty _ info); [done|].
  destruct (OAPISchema _) as [osc|]; [|done].
  destruct (h !! osc) as [schema|] eqn:Hh; simpl; [|by rewrite Hh].
  rewrite lookup_insert_eq. simpl.
  by rewrite purgeMetadata_idemp, insert_insert_eq.
Qed.

(** C3, at a primary response with the properties [ok], [tests] and
    [total] whose directive marks [ok] as metadata: two properties are
    left, so the reduction does not flatten; its [delete] acts on the
    property map of the declared schema itself, which has lost [ok] when
    the call returns. *)
Theorem reduction_deletes_from_declared_schema
    (GenerateGoSchema : heap → openapi3.SchemaRef → list string → string + Schema) :
  let after :=
    (asReducedTypeDefinition GenerateGoSchema Samples.td_tests_200
       Samples.info_ok Samples.store).2 in
  getSingleNonMetadataProperty
    (ResponseTypeDefinition_TypeDefinition Samples.td_tests_200) Samples.info_ok
  = None
  ∧ SortedStringKeys <$> (openapi3.Properties <$> Samples.store !! 1%positive)
    = Some ["ok"; "tests"; "total"]
  ∧ SortedStringKeys <$> (openapi3.Properties <$> after !! 1%positive)
    = Some ["tests"; "total"]
  ∧ after ≠ Samples.store.
Proof.
  split; [vm_compute; reflexivity|].
  split; [vm_compute; reflexivity|].
  split; [vm_compute; reflexivity|].
  eapply asReducedTypeDefinition_mutates with (k := "ok");
    [vm_compute; reflexivity..| |].
  - apply stringSliceContains_elem_of. reflexivity.
  - vm_compute. by eexists.
Qed.

(** C4, at the same operation: the first run of the reduction rewrites
    the schema that the operation declares, so the second run of the
    resolver does not start from the operation model that the first run
    started from.  With type definitions derived from the declared
    schema, the primary type definition has three properties in the first
    run and two in the second. *)
Theorem first_run_changes_the_operation_model
    (GenerateGoSchema : heap → openapi3.SchemaRef → list string → string + Schema) :
  let resolve h :=
    getPrimaryResponseTypeDefinition Samples.GetResponseTypeDefinitions
      Samples.json_Unmarshal h Samples.getTests in
  let after :=
    (asReducedTypeDefinition GenerateGoSchema Samples.td_tests_200
       Samples.info_ok Samples.store).2 in
  after ≠ Samples.store
  ∧ resolvedPropertyCount (resolve Samples.store) = Ok (Some 3)
  ∧ resolvedPropertyCount (resolve after) = Ok (Some 2)
  ∧ resolve after ≠ resolve Samples.store.
Proof.
  intros resolve after.
  assert (after ≠ Samples.store) as Hne.
  { eapply asReducedTypeDefinition_mutates with (k := "ok");
      [vm_compute; reflexivity..| |].
    - apply stringSliceContains_elem_of. reflexivity.
    - vm_compute. by eexists. }
  split; [done|].
  split; [vm_compute; reflexivity|].
  split; [vm_compute; reflexivity|].
  intros Heq.
  apply (f_equal resolvedPropertyCount) in Heq.
  vm_compute in Heq. discriminate.
Qed.

(** ** The theorems at sample operations *)

Lemma getConditionOfResponseName_cases_witness :
  getConditionOfResponseName "rsp.StatusCode" "default" = "true"
  ∧ getConditionOfResponseName "rsp.StatusCode" "4XX"
    = "rsp.StatusCode / 100 == 4"
  ∧ getConditionOfResponseName "rsp.StatusCode" "404"
    = "rsp.StatusCode == 404".
Proof.
  split; [|split].
  - apply (proj1 (getConditionOfResponseName_cases "rsp.StatusCode" "default")).
    reflexivity.
  - apply (proj1 (proj2 (getConditionOfResponseName_cases
                           "rsp.StatusCode" "4XX")) "4").
    + apply (bool_decide_unpack _). vm_compute. exact I.
    + reflexivity.
  - apply (proj2 (proj2 (getConditionOfResponseName_cases
                           "rsp.StatusCode" "404"))).
    + discriminate.
    + apply (bool_decide_unpack _). vm_compute. exact I.
Defined.

Lemma classification_total_witness :
  classify "application/octet-stream" = None
  ∧ contentTypeStep Samples.TypeDecl Samples.td_default_json noClauses
      "application/octet-stream"
    = addUnhandled "default" (unsupportedAction "application/octet-stream")
        noClauses.
Proof.
  split; [reflexivity|].
  apply (proj2 (proj2 (proj2 (proj2
           (classification_total Samples.TypeDecl "application/octet-stream"))))).
  - reflexivity.
  - discriminate.
Defined.

Lemma missing_match_is_fatal_witness :
  getPrimaryResponseInfo Samples.json_Unmarshal Samples.getBird
  = Ok (Some (mkPrimaryResponseInfo "404" "application/json" []))
  ∧ getPrimaryResponseTypeDefinition (λ _ _, inr [Samples.td_bird_200])
      Samples.json_Unmarshal ∅ Samples.getBird
    = Panic "no match found for primary response".
Proof.
  split; [vm_compute; reflexivity|].
  destruct (missing_match_is_fatal (λ _ _, inr [Samples.td_bird_200])
              Samples.json_Unmarshal ∅ Samples.getBird
              (mkPrimaryResponseInfo "404" "application/json" []))
    as (msg & Hpanic & Hmsg).
  - vm_compute. reflexivity.
  - intros tds [= <-]. constructor; [|constructor].
    simpl. intros [H _]. discriminate.
  - rewrite Hpanic. f_equal. by apply (Hmsg [Samples.td_bird_200]).
Defined.

Lemma absent_directive_default_name_witness :
  openapi3.Extensions (Spec Samples.getCat) !! "x-primary-response" = None
  ∧ getPrimaryResponseInfo Samples.json_Unmarshal Samples.getCat = Ok None
  ∧ genReturnTypeName (λ _ _, inr [Samples.td_bird_200]) Samples.GoTypeDef
      Samples.UppercaseFirstCharacter Samples.json_Unmarshal ∅ Samples.getCat
    = Ok "*GetCatResponse".
Proof.
  split; [vm_compute; reflexivity|].
  destruct (absent_directive_default_name (λ _ _, inr [Samples.td_bird_200])
              Samples.GoTypeDef Samples.UppercaseFirstCharacter
              Samples.json_Unmarshal ∅ Samples.getCat)
    as (Hinfo & _ & Hname).
  - vm_compute. reflexivity.
  - split; [exact Hinfo | exact Hname].
Defined.

Lemma primary_response_panic_messages_witness :
  getPrimaryResponseTypeDefinition (λ _ _, inr [Samples.td_bird_200])
    Samples.json_Unmarshal ∅ Samples.getDog
  = Panic "no status-code key in x-primary-response"
  ∧ primaryResponsePanicText (λ _ _, inr [Samples.td_bird_200])
      Samples.json_Unmarshal ∅ Samples.getDog
      "no status-code key in x-primary-response".
Proof.
  split; [vm_compute; reflexivity|].
  apply (proj1 (proj1 (primary_response_panic_messages
                         (λ _ _, inr [Samples.td_bird_200])
                         Samples.json_Unmarshal ∅ Samples.getDog
                         "no status-code key in x-primary-response"))).
  vm_compute. reflexivity.
Defined.

Lemma unhandled_group_one_stub_per_response_witness :
  unhandledCaseClauses
    (collectCaseClauses Samples.TypeDecl Samples.getBlob
       [Samples.td_204; Samples.td_default_json])
    !! unhandledKey "default"
  = Some (unhandledClause "default" (unsupportedAction "text/plain"))
  ∧ isStubOf Samples.getBlob "default"
      (unhandledClause "default" (unsupportedAction "text/plain")).
Proof.
  split; [vm_compute; reflexivity|].
  apply (proj2 (proj2 (unhandled_group_one_stub_per_response Samples.TypeDecl
                         Samples.getBlob
                         [Samples.td_204; Samples.td_default_json]))).
  vm_compute. reflexivity.
Defined.

(** * Further properties of the file *)

(** ** Joined lists *)

Lemma string_app_cons (x : ascii) (a b : string) :
  String x a +:+ b = String x (a +:+ b).
Proof. reflexivity. Qed.

Lemma string_app_nil_l (b : string) : EmptyString +:+ b = b.
Proof. reflexivity. Qed.

Lemma string_app_assoc (a b c : string) : (a +:+ b) +:+ c = a +:+ b +:+ c.
Proof.
  induction a as [|x a IH]; [done|]. by rewrite !string_app_cons, IH.
Qed.

Lemma string_app_nil_r (a : string) : a +:+ EmptyString = a.
Proof.
  induction a as [|x a IH]; [done|]. by rewrite string_app_cons, IH.
Qed.

Lemma bytesOf_app (a b : string) : bytesOf (a +:+ b) = bytesOf a ++ bytesOf b.
Proof.
  induction a as [|x a IH]; [done|].
  rewrite string_app_cons. unfold bytesOf in *. cbn. by rewrite IH.
Qed.

(** A list joined by commas behind a leading comma is the concatenation
    of its elements, each behind a comma. *)
Lemma leading_comma_join (parts : list string) :
  (if Nat.eqb (length parts) 0 then EmptyString
   else ", " +:+ strings_Join parts ", ")
  = foldr (λ part acc, ", " +:+ part +:+ acc) EmptyString parts.
Proof.
  destruct parts as [|x parts]; [done|]. cbn [length Nat.eqb].
  revert x. induction parts as [|y parts IH]; intros x.
  - cbn [foldr]. unfold strings_Join. cbn [String.concat].
    by rewrite string_app_nil_r.
  - specialize (IH y). cbn [foldr] in *. rewrite <-IH.
    unfold strings_Join. by cbn [String.concat].
Qed.

Lemma leading_comma_join_app (parts1 parts2 : list string) :
  foldr (λ part acc, ", " +:+ part +:+ acc) EmptyString (parts1 ++ parts2)
  = foldr (λ part acc, ", " +:+ part +:+ acc) EmptyString parts1
    +:+ foldr (λ part acc, ", " +:+ part +:+ acc) EmptyString parts2.
Proof.
  induction parts1 as [|x parts1 IH]; [done|].
  cbn [app foldr]. rewrite IH. by rewrite !string_app_assoc.
Qed.

Lemma concat_leading (f : string → string) (parts : list string) :
  foldr (λ part acc, f part +:+ acc) EmptyString parts
  = String.concat EmptyString (f <$> parts).
Proof.
  induction parts as [|x parts IH]; [done|].
  cbn [foldr fmap list_fmap]. rewrite IH.
  destruct parts as [|y parts]; cbn [fmap list_fmap String.concat];
    [by rewrite string_app_nil_r|done].
Qed.

Lemma leading_comma_join_fmap {A} (f : A → string) (params : list A) :
  (if Nat.eqb (length params) 0 then EmptyString
   else ", " +:+ strings_Join (f <$> params) ", ")
  = foldr (λ part acc, ", " +:+ part +:+ acc) EmptyString (f <$> params).
Proof. rewrite <-(length_fmap f params). apply leading_comma_join. Qed.

(** X1: thanks to the preceding comma, the three parameter lists are
    built piece by piece: the text for two lists of parameters one after
    the other is the text for the first followed by the text for the
    second, also when one of them is empty. *)
Theorem genParam_app {ParameterDefinition : Type}
    (GoVariableName TypeDef : ParameterDefinition → string)
    (params1 params2 : list ParameterDefinition) :
  genParamArgs ParameterDefinition GoVariableName TypeDef (params1 ++ params2)
  = genParamArgs ParameterDefinition GoVariableName TypeDef params1
    +:+ genParamArgs ParameterDefinition GoVariableName TypeDef params2
  ∧ genParamTypes ParameterDefinition TypeDef (params1 ++ params2)
    = genParamTypes ParameterDefinition TypeDef params1
      +:+ genParamTypes ParameterDefinition TypeDef params2
  ∧ genParamNames ParameterDefinition GoVariableName (params1 ++ params2)
    = genParamNames ParameterDefinition GoVariableName params1
      +:+ genParamNames ParameterDefinition GoVariableName params2.
Proof.
  unfold genParamArgs, genParamTypes, genParamNames.
  repeat split.
  all: rewrite !leading_comma_join_fmap, fmap_app.
  all: apply leading_comma_join_app.
Qed.

(** X2: the names and the types of [genParamNames] and [genParamTypes]
    are those of [genParamArgs], parameter by parameter: each text is the
    concatenation, over the parameters in their order, of a comma and the
    name, the type, or the name and the type of the parameter. *)
Theorem genParam_each {ParameterDefinition : Type}
    (GoVariableName TypeDef : ParameterDefinition → string)
    (params : list ParameterDefinition) :
  genParamArgs ParameterDefinition GoVariableName TypeDef params
  = String.concat EmptyString
      ((λ p, ", " +:+ GoVariableName p +:+ " " +:+ TypeDef p) <$> params)
  ∧ genParamTypes ParameterDefinition TypeDef params
    = String.concat EmptyString ((λ p, ", " +:+ TypeDef p) <$> params)
  ∧ genParamNames ParameterDefinition GoVariableName params
    = String.concat EmptyString ((λ p, ", " +:+ GoVariableName p) <$> params).
Proof.
  unfold genParamArgs, genParamTypes, genParamNames.
  repeat split.
  all: rewrite leading_comma_join_fmap.
  all: rewrite (concat_leading (λ part, ", " +:+ part)).
  all: by rewrite <-list_fmap_compose.
Qed.

(** ** String arrays and newlines *)

Lemma quoted_join (x : string) (rest : list string) :
  dq +:+ strings_Join (x :: rest) (dq +:+ "," +:+ dq) +:+ dq
  = String.concat "," ((λ s, dq +:+ s +:+ dq) <$> (x :: rest)).
Proof.
  revert x. induction rest as [|y rest IH]; intros x; [done|].
  specialize (IH y). unfold strings_Join in *.
  cbn [fmap list_fmap String.concat] in *. rewrite <-IH.
  by rewrite !string_app_assoc.
Qed.

(** X3: for a slice that is not empty, [toStringArray] writes the
    composite literal of its elements, each between quotes, separated by
    commas.  For the empty slice it writes the literal of a slice that
    holds one empty string: the quotes around the joined text are written
    whatever the length. *)
Theorem toStringArray_literal (sarr : list string) :
  (sarr ≠ [] →
   toStringArray sarr
   = "[]string{" +:+ String.concat "," ((λ s, dq +:+ s +:+ dq) <$> sarr)
     +:+ "}")
  ∧ toStringArray [] = toStringArray [EmptyString].
Proof.
  split; [|done]. intros Hne. destruct sarr as [|x rest]; [done|].
  unfold toStringArray. rewrite <-quoted_join.
  by rewrite !string_app_assoc.
Qed.

Lemma stripNewLines_cons (c : ascii) (s : string) :
  stripNewLines (String c s)
  = if Ascii.eqb c "010"%char then stripNewLines s
    else String c (stripNewLines s).
Proof. reflexivity. Qed.

(** X4: the text that [stripNewLines] returns holds no newline byte, and
    stripping it again changes nothing. *)
Theorem stripNewLines_no_newline (s : string) :
  ("010"%char ∉ bytesOf (stripNewLines s))
  ∧ stripNewLines (stripNewLines s) = stripNewLines s.
Proof.
  induction s as [|c s [IH1 IH2]].
  - split; [apply not_elem_of_nil | done].
  - rewrite stripNewLines_cons.
    destruct (Ascii.eqb_spec c "010"%char) as [->|Hc]; [done|].
    split.
    + unfold bytesOf in *. cbn. apply not_elem_of_cons. split; [done|].
      exact IH1.
    + rewrite stripNewLines_cons.
      destruct (Ascii.eqb_spec c "010"%char); [done|]. by rewrite IH2.
Qed.

(** X5: [stripNewLines] leaves a text without newline bytes as it is, and
    the stripped concatenation of two texts is the concatenation of the
    stripped texts: the other bytes are kept, in their order. *)
Theorem stripNewLines_keeps_other_bytes (s t : string) :
  ("010"%char ∉ bytesOf s → stripNewLines s = s)
  ∧ stripNewLines (s +:+ t) = stripNewLines s +:+ stripNewLines t
  ∧ String.length (stripNewLines s) ≤ String.length s.
Proof.
  induction s as [|c s (IH1 & IH2 & IH3)]; [by repeat split|].
  rewrite string_app_cons, !stripNewLines_cons.
  destruct (Ascii.eqb_spec c "010"%char) as [->|Hc].
  - split; [|split; [done|cbn; lia]].
    intros Hin. destruct Hin. unfold bytesOf. cbn. apply list_elem_of_here.
  - split; [|split].
    + intros Hin. f_equal. apply IH1. intros Hs. apply Hin.
      unfold bytesOf in *. cbn. by apply list_elem_of_further.
    + by rewrite string_app_cons, IH2.
    + cbn. lia.
Qed.
(** ** What each type definition adds *)

Lemma contentTypes_handled TypeDecl td l st :
  handledCaseClauses (fold_left (contentTypeStep TypeDecl td) l st)
  = if String.eqb (TypeName (ResponseTypeDefinition_TypeDefinition td))
         "interface{}"
    then handledCaseClauses st
    else match bool_decide (ContentTypeName td ∈ l),
               classify (ContentTypeName td) with
         | true, Some c =>
             <[handledKey c (ResponseName td) :=
                 (buildUnmarshalCase td (unmarshalAction TypeDecl c td)
                    (codecName c)).2]>
               (handledCaseClauses st)
         | _, _ => handledCaseClauses st
         end.
Proof.
  induction l as [|x l IH] using rev_ind.
  - cbn [fold_left].
    rewrite bool_decide_eq_false_2 by apply not_elem_of_nil.
    by destruct (String.eqb _ "interface{}").
  - rewrite fold_left_app. cbn [fold_left].
    unfold contentTypeStep at 1.
    destruct (String.eqb _ "interface{}") eqn:Hty; [done|].
    assert (bool_decide (ContentTypeName td ∈ l ++ [x])
            = bool_decide (ContentTypeName td ∈ l)
              || bool_decide (ContentTypeName td = x)) as ->.
    { rewrite <-bool_decide_or. apply bool_decide_ext.
      rewrite elem_of_app, list_elem_of_singleton. tauto. }
    destruct (String.eqb_spec (ContentTypeName td) x) as [<-|Hne].
    + rewrite (bool_decide_eq_true_2 (ContentTypeName td = _)) by done.
      rewrite orb_true_r.
      destruct (classify (ContentTypeName td)) as [c|] eqn:Hc.
      * cbn. rewrite IH. destruct (bool_decide _); [|done].
        unfold handledKey. by rewrite insert_insert_eq.
      * cbn. rewrite IH. by destruct (bool_decide _).
    + rewrite (bool_decide_eq_false_2 (ContentTypeName td = x)) by done.
      rewrite orb_false_r.
      by destruct (classify x).
Qed.

Lemma contentTypes_stderr TypeDecl td l st :
  stderr (fold_left (contentTypeStep TypeDecl td) l st) = stderr st.
Proof.
  revert st. induction l as [|x l IH]; intros st; [done|].
  cbn [fold_left]. rewrite IH. unfold contentTypeStep.
  destruct (String.eqb _ "interface{}"); [done|].
  destruct (classify x); [|done].
  by destruct (String.eqb (ContentTypeName td) x).
Qed.

Lemma typeDefinitionStep_handled TypeDecl op st td :
  handledCaseClauses (typeDefinitionStep TypeDecl op st td)
  = match handledCase TypeDecl op td with
    | Some (key, clause) => <[key := clause]> (handledCaseClauses st)
    | None => handledCaseClauses st
    end.
Proof.
  unfold typeDefinitionStep, handledCase.
  destruct (openapi3.Responses (Spec op) !! ResponseName td)
    as [responseRef|]; [|done].
  destruct (openapi3.ResponseRef_Value responseRef) as [value|]; [|done].
  destruct (Nat.eqb _ 0); [done|].
  rewrite contentTypes_handled.
  destruct (String.eqb _ "interface{}"); [done|].
  assert (bool_decide (ContentTypeName td
                       ∈ SortedContentKeys (openapi3.Content value))
          = bool_decide (is_Some (openapi3.Content value !! ContentTypeName td)))
    as ->.
  { apply bool_decide_ext, elem_of_SortedStringKeys. }
  destruct (openapi3.Content value !! ContentTypeName td) as [mt|].
  - rewrite bool_decide_eq_true_2 by by eexists.
    by destruct (classify _).
  - rewrite bool_decide_eq_false_2 by by intros [? ?].
    done.
Qed.

Lemma typeDefinitionStep_unhandled TypeDecl op st td :
  unhandledCaseClauses (typeDefinitionStep TypeDecl op st td)
  = match stubCase op td with
    | Some clause =>
        <[unhandledKey (ResponseName td) := clause]> (unhandledCaseClauses st)
    | None => unhandledCaseClauses st
    end.
Proof.
  unfold typeDefinitionStep, stubCase.
  destruct (openapi3.Responses (Spec op) !! ResponseName td)
    as [responseRef|]; [|done].
  destruct (openapi3.ResponseRef_Value responseRef) as [value|]; [|done].
  destruct (Nat.eqb _ 0); [done|].
  rewrite contentTypes_unhandled.
  destruct (String.eqb _ "interface{}"); [done|].
  unfold lastUnrecognized. by destruct (last _).
Qed.

Lemma typeDefinitionStep_stderr TypeDecl op st td :
  stderr (typeDefinitionStep TypeDecl op st td)
  = stderr st ++ (if hasNilValue op td then [nilValueLine op td] else []).
Proof.
  unfold typeDefinitionStep, hasNilValue.
  destruct (openapi3.Responses (Spec op) !! ResponseName td)
    as [responseRef|]; [|by rewrite app_nil_r].
  destruct (openapi3.ResponseRef_Value responseRef) as [value|]; [|done].
  rewrite app_nil_r. destruct (Nat.eqb _ 0); [done|].
  apply contentTypes_stderr.
Qed.

Lemma collectCaseClauses_snoc TypeDecl op tds td :
  collectCaseClauses TypeDecl op (tds ++ [td])
  = typeDefinitionStep TypeDecl op (collectCaseClauses TypeDecl op tds) td.
Proof. unfold collectCaseClauses. by rewrite fold_left_app. Qed.

Lemma stubCase_same_name op td1 td2 clause1 clause2 :
  ResponseName td1 = ResponseName td2 →
  stubCase op td1 = Some clause1 → stubCase op td2 = Some clause2 →
  clause1 = clause2.
Proof.
  unfold stubCase. intros <-.
  destruct (openapi3.Responses (Spec op) !! ResponseName td1)
    as [responseRef|]; [|done].
  destruct (openapi3.ResponseRef_Value responseRef) as [value|]; [|done].
  destruct (Nat.eqb _ 0); [congruence|].
  do 2 (destruct (String.eqb _ "interface{}"); [done|]).
  congruence.
Qed.

Lemma unhandled_lookup_iff
    (TypeDecl : Schema → string) (op : OperationDefinition)
    (tds : list ResponseTypeDefinition) (key clause : string) :
  unhandledCaseClauses (collectCaseClauses TypeDecl op tds) !! key = Some clause
  ↔ ∃ td, td ∈ tds ∧ key = unhandledKey (ResponseName td)
          ∧ stubCase op td = Some clause.
Proof.
  induction tds as [|td tds IH] using rev_ind.
  - cbn. rewrite lookup_empty. split; [done|].
    intros (td & Hin & _). by apply elem_of_nil in Hin.
  - rewrite collectCaseClauses_snoc, typeDefinitionStep_unhandled.
    split.
    + destruct (stubCase op td) as [cl|] eqn:Hstub.
      * rewrite lookup_insert. case_decide as Hk.
        -- intros [= <-]. exists td. split; [|done].
           apply elem_of_app. right. apply list_elem_of_here.
        -- intros (td' & Hin & ? & ?)%IH. exists td'.
           split; [|done]. apply elem_of_app. by left.
      * intros (td' & Hin & ? & ?)%IH. exists td'.
        split; [|done]. apply elem_of_app. by left.
    + intros (td' & Hin & -> & Hstub').
      apply elem_of_app in Hin as [Hin|Hin].
      * assert (unhandledCaseClauses (collectCaseClauses TypeDecl op tds)
                  !! unhandledKey (ResponseName td') = Some clause) as Hold.
        { apply IH. by exists td'. }
        destruct (stubCase op td) as [cl|] eqn:Hstub; [|done].
        rewrite lookup_insert. case_decide as Hk; [|done].
        apply unhandledKey_inj in Hk. f_equal.
        by eapply stubCase_same_name.
      * apply list_elem_of_singleton in Hin as ->.
        rewrite Hstub'. by rewrite lookup_insert_eq.
Qed.


Lemma handledCase_key TypeDecl op td key clause :
  handledCase TypeDecl op td = Some (key, clause) →
  ∃ c, classify (ContentTypeName td) = Some c
       ∧ key = handledKey c (ResponseName td)
       ∧ clause = (buildUnmarshalCase td (unmarshalAction TypeDecl c td)
                     (codecName c)).2.
Proof.
  unfold handledCase.
  destruct (openapi3.Responses (Spec op) !! ResponseName td)
    as [responseRef|]; [|done].
  destruct (openapi3.ResponseRef_Value responseRef) as [value|]; [|done].
  destruct (Nat.eqb _ 0); [done|].
  destruct (String.eqb _ "interface{}"); [done|].
  destruct (openapi3.Content value !! ContentTypeName td); [|done].
  destruct (classify (ContentTypeName td)) as [c|]; [|done].
  intros [= <- <-]. by exists c.
Qed.

Lemma handled_lookup_sound TypeDecl op tds key clause :
  handledCaseClauses (collectCaseClauses TypeDecl op tds) !! key = Some clause →
  ∃ td, td ∈ tds ∧ handledCase TypeDecl op td = Some (key, clause).
Proof.
  induction tds as [|td tds IH] using rev_ind.
  - cbn. by rewrite lookup_empty.
  - rewrite collectCaseClauses_snoc, typeDefinitionStep_handled.
    assert (handledCaseClauses (collectCaseClauses TypeDecl op tds) !! key
            = Some clause →
            ∃ td0, td0 ∈ tds ++ [td]
                   ∧ handledCase TypeDecl op td0 = Some (key, clause)) as IH'.
    { intros (td' & Hin & ?)%IH. exists td'. split; [|done].
      apply elem_of_app. by left. }
    destruct (handledCase TypeDecl op td) as [[k cl]|] eqn:Hcase; [|done].
    rewrite lookup_insert. case_decide as Hk; [|done].
    intros [= <-]. subst k. exists td. split; [|done].
    apply elem_of_app. right. apply list_elem_of_here.
Qed.

Lemma handled_lookup_last TypeDecl op pre td post key clause :
  handledCase TypeDecl op td = Some (key, clause) →
  (∀ td' k c, td' ∈ post → handledCase TypeDecl op td' = Some (k, c) →
     k ≠ key) →
  handledCaseClauses (collectCaseClauses TypeDecl op (pre ++ td :: post)) !! key
  = Some clause.
Proof.
  intros Hcase. induction post as [|td' post IH] using rev_ind; intros Hpost.
  - rewrite collectCaseClauses_snoc, typeDefinitionStep_handled, Hcase.
    by rewrite lookup_insert_eq.
  - replace (pre ++ td :: post ++ [td']) with ((pre ++ td :: post) ++ [td'])
      by by rewrite <-app_assoc.
    rewrite collectCaseClauses_snoc, typeDefinitionStep_handled.
    assert (handledCaseClauses
              (collectCaseClauses TypeDecl op (pre ++ td :: post)) !! key
            = Some clause) as Hold.
    { apply IH. intros td0 k c Hin. apply Hpost, elem_of_app. by left. }
    destruct (handledCase TypeDecl op td') as [[k c]|] eqn:Hcase'; [|done].
    rewrite lookup_insert_ne; [done|].
    eapply Hpost; [|done]. apply elem_of_app. right. apply list_elem_of_here.
Qed.

Lemma length_SortedStringKeys {V} (m : gmap string V) :
  length (SortedStringKeys m) = size m.
Proof.
  rewrite SortedStringKeys_Permutation, length_fmap.
  apply length_map_to_list.
Qed.

Lemma size_insert_le {V} (m : gmap string V) k v :
  size (<[k := v]> m) ≤ S (size m).
Proof.
  destruct (m !! k) eqn:Hk.
  - rewrite map_size_insert_Some by by eexists. lia.
  - by rewrite map_size_insert_None.
Qed.

Lemma collectCaseClauses_sizes TypeDecl op tds :
  size (handledCaseClauses (collectCaseClauses TypeDecl op tds)) ≤ length tds
  ∧ size (unhandledCaseClauses (collectCaseClauses TypeDecl op tds))
    ≤ length tds.
Proof.
  induction tds as [|td tds [IH1 IH2]] using rev_ind.
  - cbn. by rewrite !map_size_empty.
  - rewrite collectCaseClauses_snoc, typeDefinitionStep_handled,
      typeDefinitionStep_unhandled, length_app. cbn [length].
    split.
    + destruct (handledCase TypeDecl op td) as [[k c]|]; [|lia].
      pose proof (size_insert_le
                    (handledCaseClauses (collectCaseClauses TypeDecl op tds))
                    k c). lia.
    + destruct (stubCase op td) as [c|]; [|lia].
      pose proof (size_insert_le
                    (unhandledCaseClauses (collectCaseClauses TypeDecl op tds))
                    (unhandledKey (ResponseName td)) c). lia.
Qed.

Lemma collectCaseClauses_stderr TypeDecl op tds :
  stderr (collectCaseClauses TypeDecl op tds)
  = nilValueLine op <$> List.filter (hasNilValue op) tds.
Proof.
  induction tds as [|td tds IH] using rev_ind; [done|].
  rewrite collectCaseClauses_snoc, typeDefinitionStep_stderr, IH.
  rewrite List.filter_app, fmap_app. cbn [List.filter].
  by destruct (hasNilValue op td).
Qed.

Lemma handledKey_inj c c' r r' :
  handledKey c r = handledKey c' r' → c = c' ∧ r = r'.
Proof.
  unfold handledKey. destruct c, c'; cbn; intros H; by simplify_eq.
Qed.

Lemma ascii_compare_refl (c : ascii) : Ascii.compare c c = Eq.
Proof. unfold Ascii.compare. apply N.compare_refl. Qed.

Lemma string_compare_app (p a b : string) :
  String.compare (p +:+ a) (p +:+ b) = String.compare a b.
Proof.
  induction p as [|x p IH]; [done|].
  rewrite !string_app_cons. cbn [String.compare].
  by rewrite ascii_compare_refl.
Qed.

Lemma handledKey_ltb c r r' :
  String.ltb (handledKey c r) (handledKey c r') = String.ltb r r'.
Proof.
  unfold String.ltb, handledKey. by rewrite !string_compare_app.
Qed.

Lemma digit_before_X (t : ascii) :
  isDigit t = true → Ascii.compare t "X"%char = Lt.
Proof.
  unfold isDigit, Ascii.compare, nat_of_ascii. intros H.
  apply andb_true_iff in H as [_ H]. apply Nat.leb_le in H.
  apply N.compare_lt_iff. change (N_of_ascii "X"%char) with 88%N. lia.
Qed.

Lemma string_ltb_le (a b : string) :
  String.ltb a b = true → String.le b a → False.
Proof.
  unfold String.ltb, String.le, String.leb.
  rewrite (String.compare_antisym b a).
  by destruct (String.compare a b).
Qed.

Lemma string_ltb_irrefl (a : string) : String.ltb a a = false.
Proof.
  unfold String.ltb. pose proof (String.compare_antisym a a) as H.
  by destruct (String.compare a a).
Qed.

Lemma SortedStringKeys_before {V} (m : gmap string V) (k1 k2 : string) :
  k1 ∈ SortedStringKeys m → k2 ∈ SortedStringKeys m →
  String.ltb k1 k2 = true →
  ∃ l1 l2 l3, SortedStringKeys m = l1 ++ k1 :: l2 ++ k2 :: l3.
Proof.
  intros H1 H2 Hlt.
  assert (StronglySorted String.le (SortedStringKeys m)) as Hsorted.
  { apply StronglySorted_merge_sort; apply _. }
  apply list_elem_of_split in H1 as (l1 & l2 & Heq).
  rewrite Heq in H2, Hsorted.
  apply elem_of_app in H2 as [H2|H2].
  - destruct (string_ltb_le _ _ Hlt).
    eapply StronglySorted_app_1_elem_of; [done..|]. apply list_elem_of_here.
  - apply elem_of_cons in H2 as [->|H2].
    + by rewrite string_ltb_irrefl in Hlt.
    + apply list_elem_of_split in H2 as (l2' & l3 & ->).
      by exists l1, l2', l3.
Qed.

Lemma status_names_ltb (h t u : ascii) :
  h ∈ ["1"; "2"; "3"; "4"; "5"]%char → isDigit t = true →
  String.ltb (statusCodeName h t u) (statusClassName h) = true
  ∧ String.ltb (statusClassName h) "default" = true.
Proof.
  intros Hh Ht. split.
  - unfold String.ltb, statusCodeName, statusClassName.
    cbn [String.compare]. by rewrite ascii_compare_refl, digit_before_X.
  - repeat (apply elem_of_cons in Hh as [->|Hh]; [reflexivity|]).
    by apply elem_of_nil in Hh.
Qed.

Lemma classify_decoder_in_content_type ct c :
  classify ct = Some c → strings_Contains ct (codecName c) = true.
Proof.
  intros H. pose proof (classify_cases ct) as Hc. rewrite H in Hc.
  unfold contentTypesJSON, contentTypesYAML, contentTypesXML,
    echo.MIMEApplicationJSON, echo.MIMEApplicationXML, echo.MIMETextXML in Hc.
  destruct c; in_literal.
  - destruct Hc as [->|[->|[]]]; reflexivity.
  - destruct Hc as [[->|[->|[->|[->|[]]]]] _]; reflexivity.
  - destruct Hc as [[->|[->|[]]] _]; reflexivity.
Qed.

(** ** The switch as a whole *)

(** X6: the unhandled group holds a clause under a key exactly when some
    type definition of the operation writes it: the key is that of the
    definition's response name and the clause is the stub of that
    response (no content, or its last unrecognized content type for a
    definition whose type is not [interface{}]). *)
Theorem unhandled_group_characterised
    (TypeDecl : Schema → string) (op : OperationDefinition)
    (tds : list ResponseTypeDefinition) (key clause : string) :
  unhandledCaseClauses (collectCaseClauses TypeDecl op tds) !! key = Some clause
  ↔ ∃ td, td ∈ tds ∧ key = unhandledKey (ResponseName td)
          ∧ stubCase op td = Some clause.
Proof. apply unhandled_lookup_iff. Qed.

(** X7: the unhandled group does not depend on the order in which the
    type definitions are listed. *)
Theorem unhandled_group_order_independent
    (TypeDecl : Schema → string) (op : OperationDefinition)
    (tds tds' : list ResponseTypeDefinition) :
  tds ≡ₚ tds' →
  unhandledCaseClauses (collectCaseClauses TypeDecl op tds)
  = unhandledCaseClauses (collectCaseClauses TypeDecl op tds').
Proof.
  intros Hperm. apply map_eq. intros key. apply option_eq. intros clause.
  rewrite !unhandled_lookup_iff.
  split; intros (td & Hin & ?); exists td; split; try done.
  - by rewrite <-Hperm.
  - by rewrite Hperm.
Qed.

(** X8: every case of the handled group comes from a type definition
    whose response is declared with content, whose type is not
    [interface{}] and whose own content type is declared by the response
    and has a decoder; its key is the least-specific prefix, the decoder
    and the response name. *)
Theorem handled_cases_come_from_type_definitions
    (TypeDecl : Schema → string) (op : OperationDefinition)
    (tds : list ResponseTypeDefinition) (key clause : string) :
  handledCaseClauses (collectCaseClauses TypeDecl op tds) !! key = Some clause →
  ∃ td c,
    td ∈ tds
    ∧ handledCase TypeDecl op td = Some (key, clause)
    ∧ classify (ContentTypeName td) = Some c
    ∧ key = handledKey c (ResponseName td).
Proof.
  intros (td & Hin & Hcase)%handled_lookup_sound.
  destruct (handledCase_key _ _ _ _ _ Hcase) as (c & Hc & Hkey & _).
  by exists td, c.
Qed.

(** X9: when several type definitions have the same sort key, the handled
    group keeps the case of the last one listed and drops the others
    without notice. *)
Theorem handled_last_definition_wins
    (TypeDecl : Schema → string) (op : OperationDefinition)
    (pre post : list ResponseTypeDefinition) (td : ResponseTypeDefinition)
    (key clause : string) :
  handledCase TypeDecl op td = Some (key, clause) →
  (∀ td' k c, td' ∈ post → handledCase TypeDecl op td' = Some (k, c) →
     k ≠ key) →
  handledCaseClauses (collectCaseClauses TypeDecl op (pre ++ td :: post)) !! key
  = Some clause.
Proof. apply handled_lookup_last. Qed.

(** X10: two handled sort keys are equal exactly when the decoder and the
    response name are: the content type itself is not part of the key, so
    the two JSON content types of one response share a key, as do the
    four YAML and the two XML ones. *)
Theorem handled_keys_collide (c c' : codec) (r r' : string) :
  handledKey c r = handledKey c' r' ↔ c = c' ∧ r = r'.
Proof.
  split; [apply handledKey_inj|]. by intros [-> ->].
Qed.

(** X11: two unhandled sort keys are equal exactly when the response
    names are: stubs of different responses never overwrite each other. *)
Theorem unhandled_keys_collide (r r' : string) :
  unhandledKey r = unhandledKey r' ↔ r = r'.
Proof.
  split; [apply unhandledKey_inj|]. by intros ->.
Qed.

(** X12: the switch lists as many cases as the two maps hold entries, at
    most one handled case and one stub for each type definition. *)
Theorem dispatchSequence_length
    (TypeDecl : Schema → string) (op : OperationDefinition)
    (tds : list ResponseTypeDefinition) :
  let st := collectCaseClauses TypeDecl op tds in
  length (dispatchSequence st)
  = size (handledCaseClauses st) + size (unhandledCaseClauses st)
  ∧ size (handledCaseClauses st) ≤ length tds
  ∧ size (unhandledCaseClauses st) ≤ length tds.
Proof.
  intros st. split; [|apply collectCaseClauses_sizes].
  unfold dispatchSequence, groupSequence.
  by rewrite length_app, !length_fmap, !length_SortedStringKeys.
Qed.

(** X13: one line is written to the standard error for each type
    definition whose response is declared without a value, in the order
    of the type definitions, and nothing else is written. *)
Theorem stderr_lines
    (TypeDecl : Schema → string) (op : OperationDefinition)
    (tds : list ResponseTypeDefinition) :
  stderr (collectCaseClauses TypeDecl op tds)
  = nilValueLine op <$> List.filter (hasNilValue op) tds.
Proof. apply collectCaseClauses_stderr. Qed.

Lemma collectCaseClauses_nothing TypeDecl op tds :
  (∀ td responseRef,
     td ∈ tds →
     openapi3.Responses (Spec op) !! ResponseName td = Some responseRef →
     openapi3.ResponseRef_Value responseRef = None) →
  handledCaseClauses (collectCaseClauses TypeDecl op tds) = ∅
  ∧ unhandledCaseClauses (collectCaseClauses TypeDecl op tds) = ∅.
Proof.
  induction tds as [|td tds IH] using rev_ind; intros Hnil; [done|].
  rewrite collectCaseClauses_snoc, typeDefinitionStep_handled,
    typeDefinitionStep_unhandled.
  destruct IH as [-> ->].
  { intros td' ref Hin. apply Hnil, elem_of_app. by left. }
  assert (td ∈ tds ++ [td]) as Hin.
  { apply elem_of_app. right. apply list_elem_of_here. }
  unfold handledCase, stubCase.
  destruct (openapi3.Responses (Spec op) !! ResponseName td)
    as [responseRef|] eqn:Href; [|done].
  by rewrite (Hnil td responseRef Hin Href).
Qed.

(** X14: when no type definition names a response that the operation
    declares with a value, [genResponseUnmarshal] returns the empty text
    and not an empty switch. *)
Theorem genResponseUnmarshal_no_switch
    GetResponseTypeDefinitions (TypeDecl : Schema → string) (h : heap)
    (op : OperationDefinition) (tds : list ResponseTypeDefinition) :
  GetResponseTypeDefinitions h op = inr tds →
  (∀ td responseRef,
     td ∈ tds →
     openapi3.Responses (Spec op) !! ResponseName td = Some responseRef →
     openapi3.ResponseRef_Value responseRef = None) →
  genResponseUnmarshal GetResponseTypeDefinitions TypeDecl h op
  = Ok EmptyString.
Proof.
  intros Hget Hnil. unfold genResponseUnmarshal. rewrite Hget. cbn.
  destruct (Nat.eqb _ 0); [done|]. unfold renderSwitch.
  destruct (collectCaseClauses_nothing TypeDecl op tds Hnil) as [-> ->].
  by rewrite map_size_empty.
Qed.

(** X16: for one decoder, the case of an exact status code is listed
    before the case of the class of that code, and the case of a class
    before the case of [default], whenever both are in the handled group:
    digits sort before [X], and the digits 1 to 5 before [d]. *)
Theorem exact_case_listed_before_its_class
    (TypeDecl : Schema → string) (op : OperationDefinition)
    (tds : list ResponseTypeDefinition) (c : codec) (h t u : ascii) :
  h ∈ ["1"; "2"; "3"; "4"; "5"]%char → isDigit t = true →
  let keys :=
    SortedStringKeys (handledCaseClauses (collectCaseClauses TypeDecl op tds)) in
  (handledKey c (statusCodeName h t u) ∈ keys →
   handledKey c (statusClassName h) ∈ keys →
   ∃ l1 l2 l3,
     keys = l1 ++ handledKey c (statusCodeName h t u)
               :: l2 ++ handledKey c (statusClassName h) :: l3)
  ∧ (handledKey c (statusClassName h) ∈ keys →
     handledKey c "default" ∈ keys →
     ∃ l1 l2 l3,
       keys = l1 ++ handledKey c (statusClassName h)
                 :: l2 ++ handledKey c "default" :: l3).
Proof.
  intros Hh Ht keys.
  destruct (status_names_ltb h t u Hh Ht) as [Hcode Hclass].
  split; intros H1 H2; apply SortedStringKeys_before; try done;
    by rewrite handledKey_ltb.
Qed.

(** X17: the name of the decoder that a content type selects occurs in
    the content type, so the condition of a handled case, which asks
    whether the Content-Type header of the response contains that name,
    holds for a response that carries the declared content type. *)
Theorem decoder_name_in_content_type (contentTypeName : string) (c : codec) :
  classify contentTypeName = Some c →
  strings_Contains contentTypeName (codecName c) = true.
Proof. apply classify_decoder_in_content_type. Qed.

(** ** Reading the directive *)

(** X18: a directive whose [status-code] and [content-type] are strings
    is read as it is written: without [metadata-properties] the list of
    metadata properties is empty, and with an array of strings it is that
    array, in its order. *)
Theorem getPrimaryResponseInfo_reads_directive
    json_Unmarshal (op : OperationDefinition) (raw : string)
    (m : gmap string GoValue) (sc ct : string) :
  openapi3.Extensions (Spec op) !! "x-primary-response"
  = Some (openapi3.RawMessage raw) →
  json_Unmarshal raw = inr m →
  m !! "status-code" = Some (VString sc) →
  m !! "content-type" = Some (VString ct) →
  (m !! "metadata-properties" = None →
   getPrimaryResponseInfo json_Unmarshal op
   = Ok (Some (mkPrimaryResponseInfo sc ct [])))
  ∧ (∀ props, m !! "metadata-properties" = Some (VSlice (VString <$> props)) →
     getPrimaryResponseInfo json_Unmarshal op
     = Ok (Some (mkPrimaryResponseInfo sc ct props))).
Proof.
  intros Hext Hjson Hsc Hct. unfold getPrimaryResponseInfo.
  rewrite Hext, Hjson. cbn. unfold requiredString. rewrite Hsc, Hct. cbn.
  split.
  - by intros ->.
  - intros props ->. by rewrite metadataPropertiesLoop_strings.
Qed.

(** X19: when an element of [metadata-properties] is not a string,
    [getPrimaryResponseInfo] panics with the index of the first such
    element and the type of its value. *)
Theorem metadata_element_not_a_string
    json_Unmarshal (op : OperationDefinition) (raw : string)
    (m : gmap string GoValue) (sc ct : string)
    (pre : list string) (propAny : GoValue) (rest : list GoValue) :
  openapi3.Extensions (Spec op) !! "x-primary-response"
  = Some (openapi3.RawMessage raw) →
  json_Unmarshal raw = inr m →
  m !! "status-code" = Some (VString sc) →
  m !! "content-type" = Some (VString ct) →
  m !! "metadata-properties"
  = Some (VSlice ((VString <$> pre) ++ propAny :: rest)) →
  (∀ s, propAny ≠ VString s) →
  getPrimaryResponseInfo json_Unmarshal op
  = Panic ("expected string for metadata-properties element "
           +:+ pretty (length pre) +:+ ", got " +:+ typeOf propAny).
Proof.
  intros Hext Hjson Hsc Hct Hmeta Hno. unfold getPrimaryResponseInfo.
  rewrite Hext, Hjson. cbn. unfold requiredString. rewrite Hsc, Hct. cbn.
  rewrite Hmeta. by rewrite metadataPropertiesLoop_first_other.
Qed.

(** X20: [status-code] is checked first: when it is missing or not a
    string, the panic reports it, whatever [content-type] and
    [metadata-properties] are. *)
Theorem status_code_checked_first
    json_Unmarshal (op : OperationDefinition) (raw : string)
    (m : gmap string GoValue) :
  openapi3.Extensions (Spec op) !! "x-primary-response"
  = Some (openapi3.RawMessage raw) →
  json_Unmarshal raw = inr m →
  (∀ s, m !! "status-code" ≠ Some (VString s)) →
  getPrimaryResponseInfo json_Unmarshal op
  = Panic (match m !! "status-code" with
           | None => "no status-code key in x-primary-response"
           | Some tmp => "expected string for status-code in "
                         +:+ "x-primary-response, got " +:+ typeOf tmp
           end).
Proof.
  intros Hext Hjson Hno. unfold getPrimaryResponseInfo.
  rewrite Hext, Hjson. cbn. unfold requiredString.
  destruct (m !! "status-code") as [tmp|]; [|done].
  destruct tmp; try done. by destruct (Hno s).
Qed.

(** ** Resolving the directive *)

Lemma find_Some_split {A} (f : A → bool) (l : list A) (x : A) :
  find f l = Some x →
  ∃ pre post, l = pre ++ x :: post ∧ f x = true
              ∧ Forall (λ y, f y = false) pre.
Proof.
  induction l as [|y l IH]; [done|]. cbn.
  destruct (f y) eqn:Hy.
  - intros [= ->]. by exists [], l.
  - intros (pre & post & -> & Hx & Hpre)%IH.
    exists (y :: pre), post. split; [done|]. split; [done|].
    by constructor.
Qed.

(** X21: a type definition that [getPrimaryResponseTypeDefinition]
    returns is one of the operation's type definitions, its response name
    and content type are those of the directive, and it is the first such
    definition in the list. *)
Theorem getPrimaryResponseTypeDefinition_first_match
    GetResponseTypeDefinitions json_Unmarshal (h : heap)
    (op : OperationDefinition) (td : ResponseTypeDefinition) :
  getPrimaryResponseTypeDefinition GetResponseTypeDefinitions json_Unmarshal
    h op = Ok (Some td) →
  ∃ info pre post,
    getPrimaryResponseInfo json_Unmarshal op = Ok (Some info)
    ∧ GetResponseTypeDefinitions h op = inr (pre ++ td :: post)
    ∧ ResponseName td = statusCode info
    ∧ ContentTypeName td = contentType info
    ∧ Forall (λ td', ¬ (ResponseName td' = statusCode info
                        ∧ ContentTypeName td' = contentType info)) pre.
Proof.
  unfold getPrimaryResponseTypeDefinition, getResponseTypeDefinitions.
  destruct (getPrimaryResponseInfo json_Unmarshal op) as [[info|]|];
    cbn; try done.
  destruct (GetResponseTypeDefinitions h op) as [err|tds]; cbn; [done|].
  destruct (find (isPrimary info) tds) as [td'|] eqn:Hfind; [|done].
  intros [= ->].
  apply find_Some_split in Hfind as (pre & post & -> & Htd & Hpre).
  exists info, pre, post.
  unfold isPrimary in Htd. apply andb_true_iff in Htd as [H1 H2].
  apply String.eqb_eq in H1, H2.
  repeat split; try done.
  eapply Forall_impl; [exact Hpre|]. intros td' Hno [E1 E2].
  unfold isPrimary in Hno. rewrite E1, E2, !String.eqb_refl in Hno. done.
Qed.

(** X22: [getPrimaryResponseTypeDefinition] returns nil only for an
    operation without directive; with a directive it returns a type
    definition or panics. *)
Theorem getPrimaryResponseTypeDefinition_nil
    GetResponseTypeDefinitions json_Unmarshal (h : heap)
    (op : OperationDefinition) :
  getPrimaryResponseTypeDefinition GetResponseTypeDefinitions json_Unmarshal
    h op = Ok None
  ↔ getPrimaryResponseInfo json_Unmarshal op = Ok None.
Proof.
  unfold getPrimaryResponseTypeDefinition, getResponseTypeDefinitions.
  destruct (getPrimaryResponseInfo json_Unmarshal op) as [[info|]|];
    cbn; try done.
  destruct (GetResponseTypeDefinitions h op) as [err|tds]; cbn; [done|].
  by destruct (find (isPrimary info) tds).
Qed.

(** ** Flattening and reduction *)

(** X23: [getSingleNonMetadataProperty] returns nil exactly when the
    number of properties outside the metadata is not one, and a property
    that it returns is the last property of the schema. *)
Theorem getSingleNonMetadataProperty_result
    (td : TypeDefinition) (info : primaryResponseInfo) :
  (getSingleNonMetadataProperty td info = None
   ↔ length (nonMetadataProperties info
               (Properties (TypeDefinition_Schema td))) ≠ 1)
  ∧ (∀ prop, getSingleNonMetadataProperty td info = Some prop →
       last (Properties (TypeDefinition_Schema td)) = Some prop).
Proof.
  rewrite getSingleNonMetadataProperty_spec.
  destruct (nonMetadataProperties info (Properties (TypeDefinition_Schema td)))
    as [|p [|q l]] eqn:Hnm; cbn.
  - split; [by split|done].
  - split; [|done]. split; [|done]. intros Hlast.
    apply last_None in Hlast. by rewrite Hlast in Hnm.
  - split; [by split|done].
Qed.

(** X24: the loop that deletes while it ranges over the map leaves
    exactly the properties whose name is not marked as metadata, each with
    its schema. *)
Theorem purgeMetadata_filter (info : primaryResponseInfo)
    (properties : gmap string openapi3.SchemaRef) :
  purgeMetadata info properties
  = filter (λ kv, kv.1 ∉ metadataProperties info) properties.
Proof.
  apply map_eq. intros k. rewrite purgeMetadata_lookup.
  destruct (stringSliceContains (metadataProperties info) k) eqn:Hk.
  - apply stringSliceContains_elem_of in Hk. symmetry.
    apply map_lookup_filter_None. right. intros v _ Hno. by apply Hno.
  - destruct (properties !! k) as [v|] eqn:Hv.
    + symmetry. apply map_lookup_filter_Some. split; [done|].
      cbn. rewrite <-stringSliceContains_elem_of. congruence.
    + symmetry. apply map_lookup_filter_None. by left.
Qed.

(** X25: [asReducedTypeDefinition] touches no schema object but the one
    that the type definition points to, creates and removes none, and of
    that one it keeps the type and can only remove properties. *)
Theorem asReducedTypeDefinition_frame
    GenerateGoSchema (td : ResponseTypeDefinition) (info : primaryResponseInfo)
    (h : heap) (l : loc) :
  let after := (asReducedTypeDefinition GenerateGoSchema td info h).2 in
  (OAPISchema (TypeDefinition_Schema (ResponseTypeDefinition_TypeDefinition td))
   ≠ Some l → after !! l = h !! l)
  ∧ (is_Some (after !! l) ↔ is_Some (h !! l))
  ∧ (∀ schema schema',
       h !! l = Some schema → after !! l = Some schema' →
       openapi3.Type_ schema' = openapi3.Type_ schema
       ∧ openapi3.Properties schema' ⊆ openapi3.Properties schema).
Proof.
  intros after. subst after. unfold asReducedTypeDefinition.
  destruct (getSingleNonMetadataProperty _ info); cbn.
  { split; [done|]. split; [done|]. intros s s' -> [= ->]. done. }
  destruct (OAPISchema _) as [osc|]; cbn.
  2:{ split; [done|]. split; [done|]. intros s s' -> [= ->]. done. }
  destruct (h !! osc) as [schema0|] eqn:Hosc; cbn.
  2:{ split; [done|]. split; [done|]. intros s s' -> [= ->]. done. }
  destruct (decide (osc = l)) as [->|Hne].
  - rewrite lookup_insert_eq, Hosc. split; [done|].
    split; [by split; eexists|].
    intros s s' [= <-] [= <-]. cbn. split; [done|].
    rewrite purgeMetadata_filter. apply map_filter_subseteq.
  - rewrite lookup_insert_ne by done. split; [done|]. split; [done|].
    intros s s' -> [= ->]. done.
Qed.

(** X26: when the reduction cannot flatten and the generation of the Go
    schema fails, the call panics with that error and the declared schema
    is left purged: the deletion is done before the generation and is not
    undone. *)
Theorem asReducedTypeDefinition_failed_generation
    GenerateGoSchema (td : ResponseTypeDefinition) (info : primaryResponseInfo)
    (h : heap) (osc : loc) (schema : openapi3.Schema) (err : string) :
  let tdef := ResponseTypeDefinition_TypeDefinition td in
  let purged :=
    <[osc := openapi3.mkSchema (openapi3.Type_ schema)
               (purgeMetadata info (openapi3.Properties schema))]> h in
  getSingleNonMetadataProperty tdef info = None →
  OAPISchema (TypeDefinition_Schema tdef) = Some osc →
  h !! osc = Some schema →
  GenerateGoSchema purged (openapi3.mkSchemaRef EmptyString (Some osc))
    (Path (TypeDefinition_Schema tdef)) = inl err →
  asReducedTypeDefinition GenerateGoSchema td info h = (Panic err, purged).
Proof.
  intros tdef purged Hget Hosc Hh Hgen. unfold asReducedTypeDefinition.
  fold tdef. rewrite Hget, Hosc, Hh. fold purged. by rewrite Hgen.
Qed.

(** X27: when the reduction cannot flatten and the type definition has
    no OpenAPI schema (as for a reference to a type), the call panics on
    the nil pointer and leaves the store as it is. *)
Theorem asReducedTypeDefinition_nil_schema
    GenerateGoSchema (td : ResponseTypeDefinition) (info : primaryResponseInfo)
    (h : heap) :
  let tdef := ResponseTypeDefinition_TypeDefinition td in
  length (nonMetadataProperties info (Properties (TypeDefinition_Schema tdef)))
  ≠ 1 →
  OAPISchema (TypeDefinition_Schema tdef) = None →
  asReducedTypeDefinition GenerateGoSchema td info h
  = (Panic nilDereference, h).
Proof.
  intros tdef Hlen Hosc. unfold asReducedTypeDefinition. fold tdef.
  rewrite Hosc.
  assert (getSingleNonMetadataProperty tdef info = None) as ->; [|done].
  rewrite getSingleNonMetadataProperty_spec.
  by destruct (nonMetadataProperties _ _) as [|p [|q l]].
Qed.

(** X28: a second call of [asReducedTypeDefinition] with the same
    arguments, in the store that the first call left, returns what the
    first returned and leaves that store unchanged. *)
Theorem asReducedTypeDefinition_repeated
    GenerateGoSchema (td : ResponseTypeDefinition) (info : primaryResponseInfo)
    (h : heap) :
  let first := asReducedTypeDefinition GenerateGoSchema td info h in
  let second := asReducedTypeDefinition GenerateGoSchema td info first.2 in
  second.1 = first.1 ∧ second.2 = first.2.
Proof.
  intros first second. subst first second.
  by rewrite asReducedTypeDefinition_again.
Qed.

(** X29: [genReturnTypeName] panics exactly when
    [getPrimaryResponseTypeDefinition] does, with the same message: its
    second reading of the directive and its dereference of the result
    cannot fail. *)
Theorem genReturnTypeName_panics
    GetResponseTypeDefinitions (GoTypeDef : Property → string)
    (UppercaseFirstCharacter : string → string) json_Unmarshal
    (h : heap) (op : OperationDefinition) (msg : string) :
  genReturnTypeName GetResponseTypeDefinitions GoTypeDef
    UppercaseFirstCharacter json_Unmarshal h op = Panic msg
  ↔ getPrimaryResponseTypeDefinition GetResponseTypeDefinitions json_Unmarshal
      h op = Panic msg.
Proof.
  unfold genReturnTypeName.
  destruct (getPrimaryResponseTypeDefinition _ _ h op) as [[td|]|e] eqn:Htd;
    cbn; [|by split|by split; intros [= ->]].
  unfold getPrimaryResponseTypeDefinition in Htd.
  destruct (getPrimaryResponseInfo json_Unmarshal op) as [[info|]|];
    cbn in *; try done.
  by destruct (getSingleNonMetadataProperty _ info).
Qed.

(** X30: a name that [genReturnTypeName] returns is the default name of
    the response type, or the Go type of the last property of the primary
    type definition. *)
Theorem genReturnTypeName_names
    GetResponseTypeDefinitions (GoTypeDef : Property → string)
    (UppercaseFirstCharacter : string → string) json_Unmarshal
    (h : heap) (op : OperationDefinition) (name : string) :
  genReturnTypeName GetResponseTypeDefinitions GoTypeDef
    UppercaseFirstCharacter json_Unmarshal h op = Ok name →
  name = "*" +:+ UppercaseFirstCharacter
                   (genResponseTypeName UppercaseFirstCharacter (OperationId op))
  ∨ ∃ td prop,
      getPrimaryResponseTypeDefinition GetResponseTypeDefinitions
        json_Unmarshal h op = Ok (Some td)
      ∧ last (Properties (TypeDefinition_Schema
                            (ResponseTypeDefinition_TypeDefinition td)))
        = Some prop
      ∧ name = GoTypeDef prop.
Proof.
  unfold genReturnTypeName.
  destruct (getPrimaryResponseTypeDefinition _ _ h op) as [[td|]|e] eqn:Htd;
    cbn; [|by intros [= <-]; left|done].
  destruct (getPrimaryResponseInfo json_Unmarshal op) as [[info|]|];
    cbn; try done.
  destruct (getSingleNonMetadataProperty _ info) as [prop|] eqn:Hget;
    intros [= <-]; [|by left].
  right. exists td, prop. split; [done|]. split; [|done].
  rewrite getSingleNonMetadataProperty_spec in Hget.
  by destruct (nonMetadataProperties _ _) as [|p [|q l]].
Qed.

(** ** The further properties at sample inputs *)

Lemma toStringArray_literal_witness :
  toStringArray ["GET"; "POST"]
  = "[]string{" +:+ dq +:+ "GET" +:+ dq +:+ "," +:+ dq +:+ "POST" +:+ dq +:+ "}".
Proof.
  apply (proj1 (toStringArray_literal ["GET"; "POST"])). discriminate.
Defined.

Lemma stripNewLines_keeps_other_bytes_witness :
  ("010"%char ∉ bytesOf "GET /pets")
  ∧ stripNewLines "GET /pets" = "GET /pets".
Proof.
  assert ("010"%char ∉ bytesOf "GET /pets") as Hno.
  { apply (bool_decide_unpack _). vm_compute. exact I. }
  split; [exact Hno|].
  exact (proj1 (stripNewLines_keeps_other_bytes "GET /pets" EmptyString) Hno).
Defined.

Lemma unhandled_group_order_independent_witness :
  [Samples.td_204; Samples.td_default_json]
  ≡ₚ [Samples.td_default_json; Samples.td_204]
  ∧ unhandledCaseClauses
      (collectCaseClauses Samples.TypeDecl Samples.getBlob
         [Samples.td_204; Samples.td_default_json])
    = unhandledCaseClauses
        (collectCaseClauses Samples.TypeDecl Samples.getBlob
           [Samples.td_default_json; Samples.td_204]).
Proof.
  assert ([Samples.td_204; Samples.td_default_json]
          ≡ₚ [Samples.td_default_json; Samples.td_204]) as Hperm
    by apply perm_swap.
  split; [exact Hperm|].
  exact (unhandled_group_order_independent Samples.TypeDecl Samples.getBlob
           _ _ Hperm).
Defined.

Lemma handled_cases_come_from_type_definitions_witness :
  let tds := [Samples.td_200_xml; Samples.td_2XX_json] in
  let clause :=
    (buildUnmarshalCase Samples.td_2XX_json
       (unmarshalAction Samples.TypeDecl JSON Samples.td_2XX_json) "json").2 in
  handledCaseClauses (collectCaseClauses Samples.TypeDecl Samples.getThing tds)
    !! "9.json.2XX" = Some clause
  ∧ ∃ td c,
      td ∈ tds
      ∧ handledCase Samples.TypeDecl Samples.getThing td
        = Some ("9.json.2XX", clause)
      ∧ classify (ContentTypeName td) = Some c
      ∧ "9.json.2XX" = handledKey c (ResponseName td).
Proof.
  intros tds clause.
  assert (handledCaseClauses
            (collectCaseClauses Samples.TypeDecl Samples.getThing tds)
            !! "9.json.2XX" = Some clause) as Hlookup
    by (vm_compute; reflexivity).
  split; [exact Hlookup|].
  exact (handled_cases_come_from_type_definitions Samples.TypeDecl
           Samples.getThing tds "9.json.2XX" clause Hlookup).
Defined.

Lemma handled_last_definition_wins_witness :
  let clause :=
    (buildUnmarshalCase Cases.td_200_xjson
       (unmarshalAction Samples.TypeDecl JSON Cases.td_200_xjson) "json").2 in
  handledCase Samples.TypeDecl Cases.getPair Cases.td_200_json
  = Some ("9.json.200",
          (buildUnmarshalCase Cases.td_200_json
             (unmarshalAction Samples.TypeDecl JSON Cases.td_200_json)
             "json").2)
  ∧ handledCase Samples.TypeDecl Cases.getPair Cases.td_200_xjson
    = Some ("9.json.200", clause)
  ∧ handledCaseClauses
      (collectCaseClauses Samples.TypeDecl Cases.getPair
         [Cases.td_200_json; Cases.td_200_xjson]) !! "9.json.200"
    = Some clause.
Proof.
  intros clause.
  assert (handledCase Samples.TypeDecl Cases.getPair Cases.td_200_xjson
          = Some ("9.json.200", clause)) as Hcase
    by (vm_compute; reflexivity).
  split; [vm_compute; reflexivity|]. split; [exact Hcase|].
  apply (handled_last_definition_wins Samples.TypeDecl Cases.getPair
           [Cases.td_200_json] [] Cases.td_200_xjson "9.json.200" clause Hcase).
  intros td' k c Hin. destruct (not_elem_of_nil td' Hin).
Defined.

Lemma genResponseUnmarshal_no_switch_witness :
  genResponseUnmarshal (λ _ _, inr [Cases.td_200_json]) Samples.TypeDecl ∅
    Cases.getGhost
  = Ok EmptyString.
Proof.
  apply (genResponseUnmarshal_no_switch (λ _ _, inr [Cases.td_200_json])
           Samples.TypeDecl ∅ Cases.getGhost [Cases.td_200_json]).
  - reflexivity.
  - intros td responseRef Hin Href.
    apply list_elem_of_singleton in Hin. subst td.
    vm_compute in Href. by injection Href as <-.
Defined.

Lemma exact_case_listed_before_its_class_witness :
  ∃ l1 l2 l3,
    SortedStringKeys
      (handledCaseClauses
         (collectCaseClauses Samples.TypeDecl Cases.getBoth
            [Cases.td_2XX_json; Cases.td_200_json]))
    = l1 ++ handledKey JSON (statusCodeName "2" "0" "0")
         :: l2 ++ handledKey JSON (statusClassName "2") :: l3.
Proof.
  apply (proj1 (exact_case_listed_before_its_class Samples.TypeDecl
                  Cases.getBoth [Cases.td_2XX_json; Cases.td_200_json]
                  JSON "2" "0" "0"
                  ltac:(apply (bool_decide_unpack _); vm_compute; exact I)
                  ltac:(reflexivity))).
  - apply (bool_decide_unpack _). vm_compute. exact I.
  - apply (bool_decide_unpack _). vm_compute. exact I.
Defined.

Lemma decoder_name_in_content_type_witness :
  classify "text/x-json" = Some JSON
  ∧ strings_Contains "text/x-json" "json" = true.
Proof.
  split; [reflexivity|].
  apply (decoder_name_in_content_type "text/x-json" JSON). reflexivity.
Defined.

Lemma getPrimaryResponseInfo_reads_directive_witness :
  getPrimaryResponseInfo (Cases.decodeAs Cases.decoded_good) Cases.withDirective
  = Ok (Some (mkPrimaryResponseInfo "200" "application/json" ["ok"; "total"])).
Proof.
  apply (proj2 (getPrimaryResponseInfo_reads_directive
                  (Cases.decodeAs Cases.decoded_good) Cases.withDirective "{}"
                  Cases.decoded_good "200" "application/json"
                  ltac:(vm_compute; reflexivity) ltac:(reflexivity)
                  ltac:(vm_compute; reflexivity) ltac:(vm_compute; reflexivity))
           ["ok"; "total"]).
  vm_compute. reflexivity.
Defined.

Lemma metadata_element_not_a_string_witness :
  getPrimaryResponseInfo (Cases.decodeAs Cases.decoded_bad_metadata)
    Cases.withDirective
  = Panic "expected string for metadata-properties element 2, got float64".
Proof.
  apply (metadata_element_not_a_string
           (Cases.decodeAs Cases.decoded_bad_metadata) Cases.withDirective "{}"
           Cases.decoded_bad_metadata "200" "application/json"
           ["ok"; "total"] (VFloat64 "3") [VNil]).
  - vm_compute. reflexivity.
  - reflexivity.
  - vm_compute. reflexivity.
  - vm_compute. reflexivity.
  - vm_compute. reflexivity.
  - discriminate.
Defined.

Lemma status_code_checked_first_witness :
  getPrimaryResponseInfo Samples.json_Unmarshal Samples.getDog
  = Panic "no status-code key in x-primary-response".
Proof.
  rewrite (status_code_checked_first Samples.json_Unmarshal Samples.getDog
             Samples.directive_no_status
             (list_to_map [("content-type", VString "application/json")])).
  - vm_compute. reflexivity.
  - vm_compute. reflexivity.
  - vm_compute. reflexivity.
  - intros s. vm_compute. discriminate.
Defined.

Lemma getPrimaryResponseTypeDefinition_first_match_witness :
  getPrimaryResponseTypeDefinition
    (λ _ _, inr [Samples.td_bird_200; Samples.td_list_200])
    Samples.json_Unmarshal ∅ Samples.listItems
  = Ok (Some Samples.td_bird_200)
  ∧ ∃ info pre post,
      getPrimaryResponseInfo Samples.json_Unmarshal Samples.listItems
      = Ok (Some info)
      ∧ inr [Samples.td_bird_200; Samples.td_list_200]
        = inr (B:=list ResponseTypeDefinition) (A:=string)
            (pre ++ Samples.td_bird_200 :: post)
      ∧ ResponseName Samples.td_bird_200 = statusCode info
      ∧ ContentTypeName Samples.td_bird_200 = contentType info
      ∧ Forall (λ td', ¬ (ResponseName td' = statusCode info
                          ∧ ContentTypeName td' = contentType info)) pre.
Proof.
  assert (getPrimaryResponseTypeDefinition
            (λ _ _, inr [Samples.td_bird_200; Samples.td_list_200])
            Samples.json_Unmarshal ∅ Samples.listItems
          = Ok (Some Samples.td_bird_200)) as Hget
    by (vm_compute; reflexivity).
  split; [exact Hget|].
  exact (getPrimaryResponseTypeDefinition_first_match _ _ _ _ _ Hget).
Defined.

Lemma getSingleNonMetadataProperty_result_witness :
  getSingleNonMetadataProperty
    (ResponseTypeDefinition_TypeDefinition Samples.td_list_200)
    (mkPrimaryResponseInfo "200" "application/json" ["status"])
  = Some Samples.prop_status
  ∧ last (Properties (TypeDefinition_Schema
                        (ResponseTypeDefinition_TypeDefinition
                           Samples.td_list_200)))
    = Some Samples.prop_status.
Proof.
  assert (getSingleNonMetadataProperty
            (ResponseTypeDefinition_TypeDefinition Samples.td_list_200)
            (mkPrimaryResponseInfo "200" "application/json" ["status"])
          = Some Samples.prop_status) as Hget by (vm_compute; reflexivity).
  split; [exact Hget|].
  exact (proj2 (getSingleNonMetadataProperty_result _ _) _ Hget).
Defined.

Lemma asReducedTypeDefinition_frame_witness :
  (asReducedTypeDefinition Cases.failingGenerateGoSchema Samples.td_tests_200
     Samples.info_ok (<[2%positive := Samples.declared_schema]> Samples.store)).2
    !! 2%positive
  = Some Samples.declared_schema.
Proof.
  rewrite (proj1 (asReducedTypeDefinition_frame Cases.failingGenerateGoSchema
                    Samples.td_tests_200 Samples.info_ok
                    (<[2%positive := Samples.declared_schema]> Samples.store)
                    2%positive)).
  - vm_compute. reflexivity.
  - discriminate.
Defined.

Lemma asReducedTypeDefinition_failed_generation_witness :
  asReducedTypeDefinition Cases.failingGenerateGoSchema Samples.td_tests_200
    Samples.info_ok Samples.store
  = (Panic "error generating Go schema",
     <[1%positive :=
         openapi3.mkSchema "object"
           (purgeMetadata Samples.info_ok
              (openapi3.Properties Samples.declared_schema))]> Samples.store).
Proof.
  apply (asReducedTypeDefinition_failed_generation
           Cases.failingGenerateGoSchema Samples.td_tests_200 Samples.info_ok
           Samples.store 1%positive Samples.declared_schema
           "error generating Go schema").
  - vm_compute. reflexivity.
  - reflexivity.
  - vm_compute. reflexivity.
  - reflexivity.
Defined.

Lemma asReducedTypeDefinition_nil_schema_witness :
  asReducedTypeDefinition Cases.failingGenerateGoSchema Cases.td_ref_200
    Samples.info_ok Samples.store
  = (Panic nilDereference, Samples.store).
Proof.
  apply (asReducedTypeDefinition_nil_schema Cases.failingGenerateGoSchema
           Cases.td_ref_200 Samples.info_ok Samples.store).
  - cbn. discriminate.
  - reflexivity.
Defined.

Lemma genReturnTypeName_names_witness :
  genReturnTypeName (λ _ _, inr [Samples.td_list_200]) Samples.GoTypeDef
    Samples.UppercaseFirstCharacter Samples.json_Unmarshal ∅ Samples.listItems
  = Ok "string"
  ∧ ("string"
     = "*" +:+ Samples.UppercaseFirstCharacter
                 (genResponseTypeName Samples.UppercaseFirstCharacter
                    (OperationId Samples.listItems))
     ∨ ∃ td prop,
         getPrimaryResponseTypeDefinition (λ _ _, inr [Samples.td_list_200])
           Samples.json_Unmarshal ∅ Samples.listItems = Ok (Some td)
         ∧ last (Properties (TypeDefinition_Schema
                               (ResponseTypeDefinition_TypeDefinition td)))
           = Some prop
         ∧ "string" = Samples.GoTypeDef prop).
Proof.
  assert (genReturnTypeName (λ _ _, inr [Samples.td_list_200]) Samples.GoTypeDef
            Samples.UppercaseFirstCharacter Samples.json_Unmarshal ∅
            Samples.listItems = Ok "string") as Hname
    by (vm_compute; reflexivity).
  split; [exact Hname|].
  exact (genReturnTypeName_names _ _ _ _ _ _ _ Hname).
Defined.
